(** * tgzr.package_management: the plugin manager

    A shallow embedding of [src/tgzr/package_management/plugin_manager.py]:
    the [PluginManager] methods ([_resolve_plugins], [_load_plugins],
    [get_plugins], [get_broken_plugins], [get_plugin], [find_plugins]) and
    the [PluginManagerRegistry].

    Python objects are known by their identity.  Everything the module only
    calls into (entry points, the values they load, the plugin classes) is
    gathered in a record [World]; the calls that run foreign code thread an
    environment state, may raise, and may return another object each time. *)

From Stdlib Require Import Ascii.
From stdpp Require Import base option list gmap sets strings.

Set Default Proof Using "Type".

(** ** Objects, entry points, exceptions *)

(** The identity of a Python object ([id(o)]). *)
Definition obj := nat.

(** [importlib_metadata.EntryPoint]: an immutable triple. *)
Record EntryPoint := mkEntryPoint {
  name : string;
  value : string;
  group : string
}.

#[global] Instance EntryPoint_eq_dec : EqDecision EntryPoint.
Proof. solve_decision. Defined.

(** The exceptions that travel through the module.  [Foreign] is one raised
    by code outside of it; [is_Exception] says whether its class derives from
    [Exception] (what [except Exception] catches) or only from
    [BaseException].  The [ValueError]s of the module carry, as a [message],
    the values their f-string interpolates. *)
Inductive exc :=
| Foreign (is_Exception : bool) (tag : nat)
| NotImplementedError
| ValueError (m : message)
with message :=
| CallableFailed (entry_point : EntryPoint) (err : exc)
| InvalidValue (EP_GROUP : string) (ManagedPluginType : obj)
| NoPluginNamed (type_name : string) (plugin_name : string)
    (got_plugins : list string) (errors : list (EntryPoint * exc))
| NoPluginOfType (PluginType : obj)
    (got_plugins : list string) (errors : list (EntryPoint * exc)).

(** [isinstance(err, Exception)]. *)
Definition is_Exception (err : exc) : bool :=
  match err with
  | Foreign b _ => b
  | NotImplementedError => true
  | ValueError _ => true
  end.

(** ** Computations

    A computation runs on a state and either returns a value or raises, and
    leaves a state in both cases; [None] means that the bound on the chain of
    invocations ran out before the computation finished. *)

Inductive result (A : Type) :=
| Ok (a : A)
| Exn (err : exc).
Arguments Ok {A} a.
Arguments Exn {A} err.

Definition Py (S A : Type) : Type := S → option (result A * S).

Definition ret {S A} (a : A) : Py S A := λ s, Some (Ok a, s).
Definition raise {S A} (err : exc) : Py S A := λ s, Some (Exn err, s).
Definition out_of_fuel {S A} : Py S A := λ _, None.

(** A [raise] statement with no expression, in the handler of [err]. *)
Definition raise_again {S} (err : exc) : Py S unit := raise err.

Definition bind {S A B} (m : Py S A) (k : A → Py S B) : Py S B :=
  λ s, match m s with
       | Some (Ok a, s') => k a s'
       | Some (Exn err, s') => Some (Exn err, s')
       | None => None
       end.

Declare Scope py_scope.
Delimit Scope py_scope with py.
Notation "x <- m ;; k" := (bind m (λ x, k))
  (at level 100, m at next level, right associativity) : py_scope.
Notation "m ;;; k" := (bind m (λ _, k))
  (at level 100, right associativity) : py_scope.
Open Scope py_scope.

(** [try: a = body / except Exception as err: handler / else: orelse]: the
    handler sees only what derives from [Exception]; what the handler or the
    [else] suite raises is not caught. *)
Definition try_except_else {S A B}
    (body : Py S A) (handler : exc → Py S B) (orelse : A → Py S B) : Py S B :=
  λ s, match body s with
       | Some (Ok a, s') => orelse a s'
       | Some (Exn err, s') =>
           if is_Exception err then handler err s' else Some (Exn err, s')
       | None => None
       end.

(** [for x in xs: body]. *)
Fixpoint for_each {S A} (xs : list A) (body : A → Py S unit) : Py S unit :=
  match xs with
  | [] => ret tt
  | x :: xs' => body x ;;; for_each xs' body
  end.

Definition get {S} : Py S S := λ s, Some (Ok s, s).
Definition modify {S} (f : S → S) : Py S unit := λ s, Some (Ok tt, f s).

(** ** The world outside of the module *)

Record World (E : Type) := mkWorld {
  (** [EP_GROUP] of the manager class. *)
  EP_GROUP : string;
  (** [cls.managed_plugin_type()]: the class the manager is generic in. *)
  managed_plugin_type : obj;
  (** [isinstance(o, cls)]. *)
  isinstance : obj → obj → bool;
  (** [inspect.isclass(o)]. *)
  isclass : obj → bool;
  (** [issubclass(o, cls)], asked of classes only. *)
  issubclass : obj → obj → bool;
  (** [callable(o)]. *)
  callable : obj → bool;
  (** [o()]. *)
  call0 : obj → E → result obj * E;
  (** [o(entry_point)]. *)
  call1 : obj → EntryPoint → E → result obj * E;
  (** The elements of [o] in iteration order when
      [isinstance(o, (tuple, list, set))], [None] otherwise. *)
  tuple_list_set : obj → option (list obj);
  (** [importlib_metadata.entry_points(group=g)]. *)
  entry_points : string → E → list EntryPoint;
  (** [ep.load()]. *)
  ep_load : EntryPoint → E → result obj * E;
  (** [o.plugin_name()]. *)
  plugin_name : obj → result string;
  (** [cls.plugin_type_name()]; [Plugin] itself raises
      [NotImplementedError]. *)
  plugin_type_name : obj → result string
}.
Arguments EP_GROUP {E} _.
Arguments managed_plugin_type {E} _.
Arguments isinstance {E} _ _ _.
Arguments isclass {E} _ _.
Arguments issubclass {E} _ _ _.
Arguments callable {E} _ _.
Arguments call0 {E} _ _ _.
Arguments call1 {E} _ _ _ _.
Arguments tuple_list_set {E} _ _.
Arguments entry_points {E} _ _ _.
Arguments ep_load {E} _ _ _.
Arguments plugin_name {E} _ _.
Arguments plugin_type_name {E} _ _.

(** ** The manager *)

(** The instance attributes that [PluginManager.__init__] sets.  The two
    lists are kept by value: no property below depends on who else holds
    the list object that a method returned. *)
Record PluginManager := mkPluginManager {
  _broken : list (EntryPoint * exc);
  _loaded : list obj;
  _needs_loading : bool
}.

Section Manager.
Context {E : Type} (W : World E).

(** The state a method runs on: [self] and the environment. *)
Definition St : Type := PluginManager * E.

(** Foreign code runs on the environment and leaves [self] alone. *)
Definition foreign {A} (f : E → result A * E) : Py St A :=
  λ '(self, e), let '(r, e') := f e in Some (r, (self, e')).

(** A call that has no effect, such as [plugin_name()]. *)
Definition pure {A} (r : result A) : Py St A :=
  λ s, Some (r, s).

Definition _instantiate_plugin_type
    (PluginType : obj) (entry_point : EntryPoint) : Py St obj :=
  foreign (call1 W PluginType entry_point).

(** [fuel] bounds how many times [_resolve_plugins] may call itself. *)
Fixpoint _resolve_plugins (fuel : nat) (loaded : obj)
    (entry_point : EntryPoint) : Py St (list obj) :=
  let ManagedPluginType := managed_plugin_type W in
  if isinstance W loaded ManagedPluginType then
    ret [loaded]
  else if isclass W loaded && issubclass W loaded ManagedPluginType then
    plugin <- _instantiate_plugin_type loaded entry_point ;;
    ret [plugin]
  else if callable W loaded then
    try_except_else (foreign (call0 W loaded))
      (λ err, raise (ValueError (CallableFailed entry_point err)))
      (λ plugin_or_list_of_plugins,
         match fuel with
         | 0 => out_of_fuel
         | S fuel' =>
             _resolve_plugins fuel' plugin_or_list_of_plugins entry_point
         end)
  else
    match tuple_list_set W loaded with
    | Some plugins => ret plugins
    | None => raise (ValueError (InvalidValue (EP_GROUP W) ManagedPluginType))
    end.

(** Assignments to the attributes of [self]. *)
Definition clear_broken : Py St unit :=
  modify (λ '(self, e),
    (mkPluginManager [] (_loaded self) (_needs_loading self), e)).
Definition clear_loaded : Py St unit :=
  modify (λ '(self, e),
    (mkPluginManager (_broken self) [] (_needs_loading self), e)).
Definition append_broken (b : EntryPoint * exc) : Py St unit :=
  modify (λ '(self, e),
    (mkPluginManager (_broken self ++ [b]) (_loaded self)
       (_needs_loading self), e)).
Definition append_loaded (plugin : obj) : Py St unit :=
  modify (λ '(self, e),
    (mkPluginManager (_broken self) (_loaded self ++ [plugin])
       (_needs_loading self), e)).
Definition set_needs_loading (b : bool) : Py St unit :=
  modify (λ '(self, e),
    (mkPluginManager (_broken self) (_loaded self) b, e)).

(** The body of the loop of [_load_plugins].  Both handlers are a bare
    [raise], which raises [err] again, with
    [self._broken.append((ep, err))] under it.  The [logger.info] call that
    opens the body does not touch the manager and is left out. *)
Definition load_entry_point (fuel : nat) (ep : EntryPoint) : Py St unit :=
  try_except_else (foreign (ep_load W ep))
    (λ err,
       raise_again err ;;;
       append_broken (ep, err))
    (λ loaded,
       try_except_else (_resolve_plugins fuel loaded ep)
         (λ err,
            raise_again err ;;;
            append_broken (ep, err))
         (λ plugins, for_each plugins append_loaded)).

Definition _load_plugins (fuel : nat) : Py St unit :=
  all_entry_points <-
    (λ '(self, e), Some (Ok (entry_points W (EP_GROUP W) e), (self, e))) ;;
  clear_broken ;;;
  clear_loaded ;;;
  for_each all_entry_points (load_entry_point fuel) ;;;
  set_needs_loading false.

Definition get_broken_plugins (fuel : nat) (force_reload : bool)
    : Py St (list (EntryPoint * exc)) :=
  self <- get ;;
  (if force_reload || _needs_loading (fst self)
   then _load_plugins fuel else ret tt) ;;;
  self <- get ;;
  ret (_broken (fst self)).

Definition get_plugins (fuel : nat) (force_reload : bool)
    : Py St (list obj) :=
  self <- get ;;
  (if force_reload || _needs_loading (fst self)
   then _load_plugins fuel else ret tt) ;;;
  self <- get ;;
  ret (_loaded (fst self)).

(** [[p.plugin_name() for p in plugins]]. *)
Fixpoint plugin_names (plugins : list obj) : Py St (list string) :=
  match plugins with
  | [] => ret []
  | p :: plugins' =>
      n <- pure (plugin_name W p) ;;
      ns <- plugin_names plugins' ;;
      ret (n :: ns)
  end.

(** The [for] loop of [get_plugin]: it returns from the method at the first
    plugin whose name is the one asked for, and goes on to [not_found], the
    statement after the loop, when there is none. *)
Fixpoint get_plugin_loop (plugins : list obj) (plugin_name' : string)
    (not_found : Py St obj) : Py St obj :=
  match plugins with
  | [] => not_found
  | plugin :: plugins' =>
      n <- pure (plugin_name W plugin) ;;
      if String.eqb n plugin_name' then ret plugin
      else get_plugin_loop plugins' plugin_name' not_found
  end.

Definition get_plugin (fuel : nat) (plugin_name' : string) : Py St obj :=
  plugins <- get_plugins fuel false ;;
  get_plugin_loop plugins plugin_name'
    (type_name <- pure (plugin_type_name W (managed_plugin_type W)) ;;
     plugins <- get_plugins fuel false ;;
     got <- plugin_names plugins ;;
     self <- get ;;
     raise (ValueError
              (NoPluginNamed type_name plugin_name' got (_broken (fst self))))).

(** The [for] loop of [find_plugins], which appends to [found]. *)
Fixpoint find_plugins_loop (plugins : list obj) (PluginType : obj)
    (found : list obj) : list obj :=
  match plugins with
  | [] => found
  | plugin :: plugins' =>
      find_plugins_loop plugins' PluginType
        (if isinstance W plugin PluginType then found ++ [plugin] else found)
  end.

(** [raise_not_found] is a parameter of the method that its body never
    reads. *)
Definition find_plugins (fuel : nat) (PluginType : obj)
    (raise_not_found : bool) : Py St (list obj) :=
  plugins <- get_plugins fuel false ;;
  let found := find_plugins_loop plugins PluginType [] in
  match found with
  | [] =>
      plugins <- get_plugins fuel false ;;
      got <- plugin_names plugins ;;
      self <- get ;;
      raise (ValueError
               (NoPluginOfType PluginType got (_broken (fst self))))
  | _ :: _ => ret found
  end.

(** *** Vocabulary of the properties *)

(** The third branch of [_resolve_plugins] is the one taken. *)
Definition invocable (v : obj) : Prop :=
  isinstance W v (managed_plugin_type W) = false
  ∧ isclass W v && issubclass W v (managed_plugin_type W) = false
  ∧ callable W v = true.

(** [chain n v e v' e']: [n] invocations in a row, each of a value that the
    third branch takes and each returning, lead from [v] to [v']. *)
Inductive chain : nat → obj → E → obj → E → Prop :=
| chain_O v e : chain 0 v e v e
| chain_S n v e v1 e1 v' e' :
    invocable v →
    call0 W v e = (Ok v1, e1) →
    chain n v1 e1 v' e' →
    chain (S n) v e v' e'.

(** Nothing is invoked at [v], or the invocation raises. *)
Definition stops (v : obj) (e : E) : Prop :=
  ¬ invocable v ∨ ∃ err e', call0 W v e = (Exn err, e').


(** The loop of [_load_plugins] on a manager with nothing loaded. *)
Definition pass (fuel : nat) (eps : list EntryPoint) (e : E)
    : option (result unit * St) :=
  for_each eps (load_entry_point fuel) (mkPluginManager [] [] true, e).

(** [self] with [plugins] added at the end of its list. *)
Definition extend (self : PluginManager) (plugins : list obj) : PluginManager :=
  mkPluginManager (_broken self) (_loaded self ++ plugins)
    (_needs_loading self).

(** Every plugin of the list answers [plugin_name()], with these names. *)
Definition named (plugins : list obj) (names : list string) : Prop :=
  Forall2 (λ p n, plugin_name W p = Ok n) plugins names.

(** Every plugin of the list passes [isinstance(p, ManagedPluginType)]. *)
Definition managed (plugins : list obj) : Prop :=
  Forall (λ p, isinstance W p (managed_plugin_type W) = true) plugins.



End Manager.

(** ** The registry and the objects of a process

    [PluginManagerRegistry._PLUGIN_MANAGERS] is one [set] object, made when
    the class is, and [get_plugin_managers] makes another one on every call.
    Sets are therefore kept in a store, by identity, next to the manager
    instances; a manager hashes and compares by identity. *)

Record Process (E : Type) := mkProcess {
  sets : gmap obj (gset obj);
  managers : gmap obj PluginManager;
  next_id : obj;
  environ : E
}.
Arguments mkProcess {E} _ _ _ _.
Arguments sets {E} _.
Arguments managers {E} _.
Arguments next_id {E} _.
Arguments environ {E} _.

(** The set object that the class attribute names. *)
Definition _PLUGIN_MANAGERS : obj := 0.

Section Registry.
Context {E : Type}.
Implicit Type p : Process E.

(** The process once the module is imported. *)
Definition process_start (e : E) : Process E :=
  mkProcess {[ _PLUGIN_MANAGERS := ∅ ]} ∅ 1 e.

(** An in-place change of the set [s], such as [s.add(x)], and
    [s.copy()], which makes a new set. *)
Definition set_mutate (s : obj) (f : gset obj → gset obj) p : Process E :=
  mkProcess (alter f s (sets p)) (managers p) (next_id p) (environ p).

Definition set_add (s x : obj) p : Process E :=
  set_mutate s (λ xs, {[x]} ∪ xs) p.

Definition set_copy (s : obj) p : obj * Process E :=
  (next_id p,
   mkProcess (<[next_id p := default ∅ (sets p !! s)]> (sets p))
     (managers p) (S (next_id p)) (environ p)).

(** [PluginManagerRegistry.register]. *)
Definition register (plugin_manager : obj) p : Process E :=
  set_add _PLUGIN_MANAGERS plugin_manager p.

(** [PluginManagerRegistry.get_plugin_managers]. *)
Definition get_plugin_managers p : obj * Process E :=
  set_copy _PLUGIN_MANAGERS p.

(** [PluginManager()]: a new object, then [__init__] on it. *)
Definition __init__ (self : obj) p : Process E :=
  let p := register self p in
  mkProcess (sets p)
    (<[self := mkPluginManager [] [] true]> (managers p))
    (next_id p) (environ p).

Definition PluginManager_new p : obj * Process E :=
  let self := next_id p in
  (self,
   __init__ self
     (mkProcess (sets p) (managers p) (S (next_id p)) (environ p))).

(** A method of the manager [self], run in the process. *)
Definition method {A} (self : obj) (m : Py (@St E) A) p
    : option (result A * Process E) :=
  match managers p !! self with
  | None => None
  | Some pm =>
      match m (pm, environ p) with
      | None => None
      | Some (r, (pm', e')) =>
          Some (r, mkProcess (sets p) (<[self := pm']> (managers p))
                     (next_id p) e')
      end
  end.

(** What the registry holds. *)
Definition registered p : gset obj :=
  default ∅ (sets p !! _PLUGIN_MANAGERS).

(** The processes a program can be in: it makes managers, calls their
    methods, registers a manager it has again, takes snapshots of the
    registry and changes the snapshots it took. *)
Inductive reachable : Process E → Prop :=
| reach_start e : reachable (process_start e)
| reach_new p : reachable p → reachable (PluginManager_new p).2
| reach_method {A} self (m : Py St A) p r p' :
    reachable p → method self m p = Some (r, p') → reachable p'
| reach_register pm p :
    reachable p → pm ∈ dom (managers p) → reachable (register pm p)
| reach_snapshot p : reachable p → reachable (get_plugin_managers p).2
| reach_mutate s f p :
    reachable p → s ≠ _PLUGIN_MANAGERS → reachable (set_mutate s f p).

(** The registry holds the managers made so far, and the identities in use
    are below the next one. *)
Definition registry_ok p : Prop :=
  sets p !! _PLUGIN_MANAGERS = Some (dom (managers p))
  ∧ (∀ l, l ∈ dom (sets p) → l < next_id p)
  ∧ (∀ l, l ∈ dom (managers p) → l < next_id p).

End Registry.

(** ** A small world to run the methods in

    The managed type is the class [1]; [2] is a subclass of it, whose
    instances are made at the identities from [100] on (the environment
    counts them); [3] and [6] are instances of [1]; [4] is a function
    returning the list [5], which holds [3] and [6]; [7] is a number; [8] is a
    function that returns itself; [9] is a list holding the number [7]; [10]
    is a function that raises; [11] is a function that returns itself as
    long as the environment counts down and the plugin [3] at zero.  An entry
    point loads the object that its [value] names, and any other one, such
    as [missing], fails to import. *)
Module Demo.

Definition T : obj := 1.

Definition ep (v : string) : EntryPoint := mkEntryPoint v v "demo".

Definition ImportError : exc := Foreign true 0.
Definition AttributeError : exc := Foreign true 1.
Definition TypeError : exc := Foreign true 2.
Definition RuntimeError : exc := Foreign true 3.

Definition instance_of_T (o : obj) : bool :=
  bool_decide (o = 3) || bool_decide (o = 6) || bool_decide (100 ≤ o).

Definition load (d : EntryPoint) (e : nat) : result obj * nat :=
  if String.eqb (value d) "plugin" then (Ok 3, e)
  else if String.eqb (value d) "other" then (Ok 6, e)
  else if String.eqb (value d) "class" then (Ok 2, e)
  else if String.eqb (value d) "factory" then (Ok 4, e)
  else if String.eqb (value d) "number" then (Ok 7, e)
  else if String.eqb (value d) "forever" then (Ok 8, e)
  else if String.eqb (value d) "numbers" then (Ok 9, e)
  else if String.eqb (value d) "failing" then (Ok 10, e)
  else if String.eqb (value d) "countdown" then (Ok 11, e)
  else (Exn ImportError, e).

Definition lists (o : obj) : option (list obj) :=
  if bool_decide (o = 5) then Some [3; 6]
  else if bool_decide (o = 9) then Some [7]
  else None.


Definition world_of (tls : obj → option (list obj)) (eps : list EntryPoint)
    : World nat := {|
  EP_GROUP := "demo";
  managed_plugin_type := T;
  isinstance o c :=
    bool_decide (c = T) && instance_of_T o
    || bool_decide (c = 2) && bool_decide (100 ≤ o);
  isclass o := bool_decide (o = 1) || bool_decide (o = 2);
  issubclass o c := bool_decide (c = T) && (bool_decide (o = 1) || bool_decide (o = 2));
  callable o :=
    bool_decide (o = 1) || bool_decide (o = 2) || bool_decide (o = 4)
    || bool_decide (o = 8) || bool_decide (o = 10) || bool_decide (o = 11);
  call0 o e :=
    if bool_decide (o = 4) then (Ok 5, e)
    else if bool_decide (o = 8) then (Ok 8, e)
    else if bool_decide (o = 10) then (Exn RuntimeError, e)
    else if bool_decide (o = 11) then
      match e with 0 => (Ok 3, 0) | S e' => (Ok 11, e') end
    else (Exn TypeError, e);
  call1 o d e :=
    if bool_decide (o = 1) || bool_decide (o = 2) then (Ok (100 + e), S e)
    else (Exn TypeError, e);
  tuple_list_set := tls;
  entry_points g e := if String.eqb g "demo" then eps else [];
  ep_load := load;
  plugin_name o :=
    if bool_decide (o = 3) then Ok "a"
    else if bool_decide (o = 6) then Ok "b"
    else if bool_decide (100 ≤ o) then Ok "pkg.Class"
    else Exn AttributeError;
  plugin_type_name c :=
    if bool_decide (c = T) then Ok "demo" else Exn NotImplementedError
|}.

Definition world : list EntryPoint → World nat := world_of lists.

(** A manager as [__init__] leaves it. *)
Definition fresh : PluginManager := mkPluginManager [] [] true.

End Demo.

(** ** The steps of a process

    One thing that a program does to the objects of the process: the same
    moves as in [reachable], as a relation between the process before and
    the process after. *)

Section Steps.
Context {E : Type}.
Implicit Type p : Process E.

(** [frozen] holds the set objects that the program does not change in
    place; it never does so with the set of the registry. *)
Inductive step (frozen : gset obj) : Process E → Process E → Prop :=
| step_new p : step frozen p (PluginManager_new p).2
| step_method {A} self (m : Py St A) p r p' :
    method self m p = Some (r, p') → step frozen p p'
| step_register pm p :
    pm ∈ dom (managers p) → step frozen p (register pm p)
| step_snapshot p : step frozen p (get_plugin_managers p).2
| step_mutate s f p :
    s ≠ _PLUGIN_MANAGERS → s ∉ frozen → step frozen p (set_mutate s f p).

(** Any number of steps. *)
Definition steps (frozen : gset obj) : Process E → Process E → Prop :=
  rtc (step frozen).

End Steps.

(** ** The plugin base class

    [Plugin] and the classes that derive from it.  The three methods that
    name a plugin are class methods: a call looks the method up on the class
    of the plugin, and finds the one of [Plugin] when the class and its other
    bases define none. *)

Module Plugin.

(** A class deriving from [Plugin]: the module and the name it is defined
    under, and what its own [plugin_type_name] and [plugin_name] give, when
    it has them. *)
Record class := mkClass {
  __module__ : string;
  __name__ : string;
  own_plugin_type_name : option (result string);
  own_plugin_name : option (result string)
}.

(** An instance, with the attribute that [__init__] sets. *)
Record instance := mkInstance {
  __class__ : class;
  _entry_point : EntryPoint
}.

(** What the keys of [plugin_info()] map to. *)
Inductive info_value :=
| Str (s : string)
| Ep (ep : EntryPoint).

Definition and_then {A B} (r : result A) (k : A → result B) : result B :=
  match r with
  | Ok a => k a
  | Exn err => Exn err
  end.

Definition plugin_type_name (cls : class) : result string :=
  match own_plugin_type_name cls with
  | Some r => r
  | None => Exn NotImplementedError
  end.

Definition plugin_name (cls : class) : result string :=
  match own_plugin_name cls with
  | Some r => r
  | None => Ok (__module__ cls +:+ "." +:+ __name__ cls)
  end.

Definition plugin_id (cls : class) : result string :=
  and_then (plugin_type_name cls) (λ type_name,
  and_then (plugin_name cls) (λ name,
  Ok (type_name +:+ "@" +:+ name))).

Definition __init__ (cls : class) (ep : EntryPoint) : instance :=
  mkInstance cls ep.

Definition plugin_info (self : instance) : result (gmap string info_value) :=
  and_then (plugin_type_name (__class__ self)) (λ type_name,
  and_then (plugin_name (__class__ self)) (λ name,
  and_then (plugin_id (__class__ self)) (λ id,
  Ok (<["entry_point" := Ep (_entry_point self)]>
        (<["plugin_id" := Str id]>
           (<["plugin_name" := Str name]>
              (<["plugin_type_name" := Str type_name]> ∅))))))).

(** The character [c] occurs in [s]. *)
Fixpoint occurs (c : Ascii.ascii) (s : string) : bool :=
  match s with
  | EmptyString => false
  | String c' s' => Ascii.eqb c c' || occurs c s'
  end.

End Plugin.

(** * Properties *)

(** ** The resolution of one value *)

Section Resolution.
Context {E : Type} (W : World E).
Implicit Types (self : PluginManager) (e : E) (D : EntryPoint).

Local Abbreviation T := (managed_plugin_type W).

Lemma invocable_dec v : {invocable W v} + {¬ invocable W v}.
Proof.
  unfold invocable.
  destruct (isinstance W v T); [right; intros [? _]; done |].
  destruct (isclass W v && issubclass W v T); [right; intros (_ & ? & _); done |].
  destruct (callable W v); [left; done | right; intros (_ & _ & ?); done].
Qed.

Lemma resolve_invocable fuel v D self e :
  invocable W v →
  _resolve_plugins W fuel v D (self, e) =
    match call0 W v e with
    | (Ok v1, e1) =>
        match fuel with
        | 0 => None
        | S fuel' => _resolve_plugins W fuel' v1 D (self, e1)
        end
    | (Exn err, e1) =>
        Some (Exn (if is_Exception err
                   then ValueError (CallableFailed D err) else err),
              (self, e1))
    end.
Proof.
  intros (Hi & Hc & Hf).
  destruct fuel; simpl; rewrite Hi, Hc, Hf;
    unfold try_except_else, foreign; simpl;
    destruct (call0 W v e) as [[v1|err] e1]; simpl; try done;
    destruct (is_Exception err); done.
Qed.

Lemma resolve_not_invocable fuel v D s :
  ¬ invocable W v →
  _resolve_plugins W fuel v D s = _resolve_plugins W 0 v D s
  ∧ is_Some (_resolve_plugins W 0 v D s).
Proof.
  intros Hn. destruct s as [self e].
  assert (Hcases : isinstance W v T = true
                   ∨ isinstance W v T = false
                     ∧ isclass W v && issubclass W v T = true
                   ∨ isinstance W v T = false
                     ∧ isclass W v && issubclass W v T = false
                     ∧ callable W v = false).
  { unfold invocable in Hn.
    destruct (isinstance W v T); [by left | right].
    destruct (isclass W v && issubclass W v T); [by left | right].
    destruct (callable W v); [exfalso; by apply Hn | done]. }
  destruct Hcases as [Hi | [[Hi Hc] | (Hi & Hc & Hf)]].
  - destruct fuel; simpl; rewrite Hi; eauto.
  - destruct fuel; simpl; rewrite Hi, Hc;
      unfold bind, _instantiate_plugin_type, foreign;
      destruct (call1 W v D e) as [[?|?] ?]; simpl; eauto.
  - destruct fuel; simpl; rewrite Hi, Hc, Hf;
      destruct (tuple_list_set W v); simpl; eauto.
Qed.

Lemma resolve_stops fuel v D self e :
  stops W v e →
  _resolve_plugins W fuel v D (self, e) = _resolve_plugins W 0 v D (self, e)
  ∧ is_Some (_resolve_plugins W 0 v D (self, e)).
Proof.
  intros [Hn | (err & e1 & Hcall)]; [by apply resolve_not_invocable |].
  destruct (invocable_dec v) as [Hv | Hn]; [| by apply resolve_not_invocable].
  rewrite !(resolve_invocable _ v) by done. rewrite Hcall. eauto.
Qed.

Lemma resolve_chain n v e v' e' D self :
  chain W n v e v' e' →
  ∀ fuel,
    _resolve_plugins W (n + fuel) v D (self, e)
    = _resolve_plugins W fuel v' D (self, e').
Proof.
  induction 1 as [| n v e v1 e1 v' e' Hv Hcall _ IH]; intros fuel; [done |].
  rewrite resolve_invocable by done. rewrite Hcall. simpl. apply IH.
Qed.


(** Whoever finishes has followed a chain to a value that stops it. *)
Lemma resolve_finishes_chain fuel :
  ∀ v D self e,
    is_Some (_resolve_plugins W fuel v D (self, e)) →
    ∃ n v' e', n ≤ fuel ∧ chain W n v e v' e' ∧ stops W v' e'.
Proof.
  induction fuel as [| fuel IH]; intros v D self e Hsome.
  - destruct (invocable_dec v) as [Hv | Hn].
    + rewrite resolve_invocable in Hsome by done.
      destruct (call0 W v e) as [[v1|err] e1] eqn:Hcall.
      * by destruct Hsome.
      * exists 0, v, e. split; [lia |]. split; [constructor |].
        right. eauto.
    + exists 0, v, e. split; [lia |]. split; [constructor | by left].
  - destruct (invocable_dec v) as [Hv | Hn].
    + rewrite resolve_invocable in Hsome by done.
      destruct (call0 W v e) as [[v1|err] e1] eqn:Hcall.
      * destruct (IH _ _ _ _ Hsome) as (n & v' & e' & Hle & Hch & Hst).
        exists (S n), v', e'. split; [lia |]. split; [| done].
        by eapply chain_S.
      * exists 0, v, e. split; [lia |]. split; [constructor |].
        right. eauto.
    + exists 0, v, e. split; [lia |]. split; [constructor | by left].
Qed.

End Resolution.

(** ** A load pass *)

Section Loading.
Context {E : Type} (W : World E).
Implicit Types (self : PluginManager) (e : E) (D : EntryPoint).

Local Abbreviation T := (managed_plugin_type W).

Lemma extend_nil self : extend self [] = self.
Proof. destruct self. unfold extend. simpl. by rewrite app_nil_r. Qed.

Lemma extend_extend self l1 l2 :
  extend (extend self l1) l2 = extend self (l1 ++ l2).
Proof. unfold extend. simpl. by rewrite app_assoc. Qed.

Lemma for_each_app {S A} (xs ys : list A) (body : A → Py S unit) s :
  for_each (xs ++ ys) body s = (for_each xs body ;;; for_each ys body) s.
Proof.
  revert s. induction xs as [| x xs IH]; intros s; simpl; [done |].
  unfold bind in *. destruct (body x s) as [[[[]|err] s1]|]; try done.
Qed.

Lemma append_all plugins self e :
  for_each plugins append_loaded (self, e)
  = Some (Ok tt, (extend self plugins, e)).
Proof.
  revert self. induction plugins as [| p plugins IH]; intros self; simpl.
  - unfold ret. by rewrite extend_nil.
  - unfold bind, append_loaded, modify. rewrite IH.
    change (mkPluginManager (_broken self) (_loaded self ++ [p])
              (_needs_loading self)) with (extend self [p]).
    by rewrite extend_extend.
Qed.

(** Resolving runs foreign code only: [self] is not changed, and not
    read either. *)
Lemma resolve_self fuel :
  ∀ v D self e,
    _resolve_plugins W fuel v D (self, e)
    = match _resolve_plugins W fuel v D (mkPluginManager [] [] true, e) with
      | Some (r, (_, e')) => Some (r, (self, e'))
      | None => None
      end.
Proof.
  induction fuel as [| fuel IH]; intros v D self e; simpl.
  - destruct (isinstance W v T); [done |].
    destruct (isclass W v && issubclass W v T).
    { unfold bind, _instantiate_plugin_type, foreign.
      by destruct (call1 W v D e) as [[?|?] ?]. }
    destruct (callable W v).
    { unfold try_except_else, foreign.
      destruct (call0 W v e) as [[?|err] ?]; [done |].
      by destruct (is_Exception err). }
    by destruct (tuple_list_set W v).
  - destruct (isinstance W v T); [done |].
    destruct (isclass W v && issubclass W v T).
    { unfold bind, _instantiate_plugin_type, foreign.
      by destruct (call1 W v D e) as [[?|?] ?]. }
    destruct (callable W v).
    { unfold try_except_else, foreign.
      destruct (call0 W v e) as [[v1|err] e1].
      - rewrite (IH v1 D self e1). done.
      - by destruct (is_Exception err). }
    by destruct (tuple_list_set W v).
Qed.

(** Nothing that stands under a bare [raise] runs. *)
Lemma raise_again_ends {S} err (k : Py S unit) s :
  (raise_again err ;;; k) s = Some (Exn err, s).
Proof. reflexivity. Qed.

(** One turn of the loop: what the entry point loads is resolved and
    added, and whatever is raised on the way leaves the method. *)
Lemma load_entry_point_eq fuel D self e :
  load_entry_point W fuel D (self, e)
  = match ep_load W D e with
    | (Exn err, e1) => Some (Exn err, (self, e1))
    | (Ok v, e1) =>
        match _resolve_plugins W fuel v D (mkPluginManager [] [] true, e1) with
        | None => None
        | Some (Exn err, (_, e2)) => Some (Exn err, (self, e2))
        | Some (Ok plugins, (_, e2)) => Some (Ok tt, (extend self plugins, e2))
        end
    end.
Proof.
  unfold load_entry_point, try_except_else at 1, foreign.
  destruct (ep_load W D e) as [[v|err] e1]; simpl.
  - unfold try_except_else. rewrite resolve_self.
    destruct (_resolve_plugins W fuel v D _) as [[[ps|err] [m e2]]|]; simpl.
    + apply append_all.
    + by destruct (is_Exception err).
    + done.
  - by destruct (is_Exception err).
Qed.

(** The loop on any manager is the loop on an empty one, with what it
    loads added to the list. *)
Lemma loop_pass fuel eps :
  ∀ self e,
    for_each eps (load_entry_point W fuel) (self, e)
    = match pass W fuel eps e with
      | Some (r, (m, e')) => Some (r, (extend self (_loaded m), e'))
      | None => None
      end.
Proof.
  unfold pass.
  induction eps as [| D eps IH]; intros self e; simpl.
  - unfold ret. simpl. by rewrite extend_nil.
  - unfold bind. rewrite !load_entry_point_eq.
    destruct (ep_load W D e) as [[v|err] e1]; simpl.
    + destruct (_resolve_plugins W fuel v D _) as [[[ps|err] [m e2]]|];
        simpl; [| by rewrite extend_nil | done].
      rewrite (IH (extend self ps) e2).
      rewrite (IH (extend _ ps) e2).
      destruct (for_each eps _ _) as [[r [m' e3]]|]; [| done].
      simpl. by rewrite extend_extend.
    + by rewrite extend_nil.
Qed.

Lemma pass_broken fuel eps e r m e' :
  pass W fuel eps e = Some (r, (m, e')) →
  _broken m = [] ∧ _needs_loading m = true.
Proof.
  unfold pass. revert e.
  induction eps as [| D eps IH]; intros e; simpl.
  - unfold ret. by intros [= <- <- <-].
  - unfold bind. rewrite load_entry_point_eq.
    destruct (ep_load W D e) as [[v|err] e1]; simpl.
    + destruct (_resolve_plugins W fuel v D _) as [[[ps|err] [m0 e2]]|];
        simpl; [| by intros [= <- <- <-] | done].
      rewrite loop_pass.
      destruct (pass W fuel eps e2) as [[r' [m' e3]]|] eqn:Hp; [| done].
      intros [= <- <- <-]. simpl. eauto.
    + by intros [= <- <- <-].
Qed.

Lemma pass_app fuel eps1 eps2 e :
  pass W fuel (eps1 ++ eps2) e
  = match pass W fuel eps1 e with
    | Some (Ok _, (m1, e1)) =>
        match pass W fuel eps2 e1 with
        | Some (r, (m2, e2)) =>
            Some (r, (extend m1 (_loaded m2), e2))
        | None => None
        end
    | other => other
    end.
Proof.
  unfold pass at 1. rewrite for_each_app. unfold bind.
  fold (pass W fuel eps1 e).
  destruct (pass W fuel eps1 e) as [[[[]|err] [m1 e1]]|]; try done.
  by rewrite loop_pass.
Qed.

Lemma pass_cons fuel D eps e :
  pass W fuel (D :: eps) e
  = match load_entry_point W fuel D (mkPluginManager [] [] true, e) with
    | Some (Ok _, (m1, e1)) =>
        match pass W fuel eps e1 with
        | Some (r, (m2, e2)) =>
            Some (r, (extend m1 (_loaded m2), e2))
        | None => None
        end
    | other => other
    end.
Proof.
  unfold pass at 1. simpl. unfold bind.
  destruct (load_entry_point W fuel D _) as [[[[]|err] [m1 e1]]|]; try done.
  by rewrite loop_pass.
Qed.

(** The whole method, in terms of the pass over the entry points of the
    group. *)
Lemma load_plugins_eq fuel self e :
  _load_plugins W fuel (self, e)
  = match pass W fuel (entry_points W (EP_GROUP W) e) e with
    | Some (Ok _, (m, e')) =>
        Some (Ok tt, (mkPluginManager [] (_loaded m) false, e'))
    | Some (Exn err, (m, e')) =>
        Some (Exn err,
              (mkPluginManager [] (_loaded m) (_needs_loading self), e'))
    | None => None
    end.
Proof.
  unfold _load_plugins, bind at 1. unfold bind at 1. simpl.
  unfold bind at 1. simpl. unfold bind. rewrite loop_pass.
  destruct (pass W fuel _ e) as [[[[]|err] [m e']]|]; simpl; done.
Qed.

End Loading.

(** ** The queries *)

Section Queries.
Context {E : Type} (W : World E).
Implicit Types (self : PluginManager) (e : E) (D : EntryPoint).

Lemma load_plugins_done fuel s m e' :
  _load_plugins W fuel s = Some (Ok tt, (m, e')) →
  _needs_loading m = false ∧ _broken m = [].
Proof.
  destruct s as [self e]. rewrite load_plugins_eq.
  destruct (pass W fuel _ e) as [[[[]|err] [m0 e0]]|]; [| done..].
  by intros [= <- <-].
Qed.

Lemma get_plugins_eq fuel force_reload self e :
  get_plugins W fuel force_reload (self, e)
  = if force_reload || _needs_loading self
    then match _load_plugins W fuel (self, e) with
         | Some (Ok _, (m, e')) => Some (Ok (_loaded m), (m, e'))
         | Some (Exn err, s') => Some (Exn err, s')
         | None => None
         end
    else Some (Ok (_loaded self), (self, e)).
Proof.
  unfold get_plugins, bind, get. simpl.
  destruct (force_reload || _needs_loading self); [| done].
  destruct (_load_plugins W fuel (self, e)) as [[[[]|err] [m e']]|]; done.
Qed.

Lemma get_plugins_cached fuel self e :
  _needs_loading self = false →
  get_plugins W fuel false (self, e) = Some (Ok (_loaded self), (self, e)).
Proof. intros H. rewrite get_plugins_eq, H. done. Qed.

Lemma get_plugins_Ok fuel force_reload s plugins m e' :
  get_plugins W fuel force_reload s = Some (Ok plugins, (m, e')) →
  plugins = _loaded m ∧ _needs_loading m = false.
Proof.
  destruct s as [self e]. rewrite get_plugins_eq.
  destruct (force_reload || _needs_loading self) eqn:Hneeds.
  - destruct (_load_plugins W fuel (self, e)) as [[[[]|err] [m0 e0]]|] eqn:Hl;
      [| done..].
    intros [= <- <- <-]. split; [done |]. by eapply load_plugins_done.
  - intros [= <- <- <-]. split; [done |].
    by apply orb_false_iff in Hneeds as [_ ?].
Qed.


Lemma plugin_names_Ok plugins :
  ∀ names s s',
    plugin_names W plugins s = Some (Ok names, s') →
    s' = s ∧ named W plugins names.
Proof.
  induction plugins as [| p ps IH]; intros names s s'; simpl.
  - intros [= <- <-]. split; [done | constructor].
  - unfold bind, pure. destruct (plugin_name W p) as [n|err] eqn:Hp; [| done].
    destruct (plugin_names W ps s) as [[[ns|err] s1]|] eqn:Hps; [| done..].
    intros [= <- <-]. destruct (IH _ _ _ Hps) as [-> Hn].
    split; [done | by constructor].
Qed.

(** The loop stops at the first plugin of that name. *)
Lemma get_plugin_loop_first l1 p l2 n not_found s :
  Forall (λ q, ∃ m, plugin_name W q = Ok m ∧ m ≠ n) l1 →
  plugin_name W p = Ok n →
  get_plugin_loop W (l1 ++ p :: l2) n not_found s = Some (Ok p, s).
Proof.
  intros Hl1 Hp. induction Hl1 as [| q l1 (m & Hq & Hne) _ IH]; simpl.
  - unfold bind, pure. rewrite Hp, String.eqb_refl. done.
  - unfold bind, pure. rewrite Hq.
    apply String.eqb_neq in Hne. rewrite Hne. done.
Qed.

(** It reaches the statement after it when no plugin has that name. *)
Lemma get_plugin_loop_none plugins n not_found s :
  Forall (λ q, ∃ m, plugin_name W q = Ok m ∧ m ≠ n) plugins →
  get_plugin_loop W plugins n not_found s = not_found s.
Proof.
  induction 1 as [| q l1 (m & Hq & Hne) _ IH]; simpl; [done |].
  unfold bind, pure. rewrite Hq.
  apply String.eqb_neq in Hne. rewrite Hne. done.
Qed.


(** The loop of [find_plugins] filters the list. *)
Lemma find_plugins_loop_filter plugins C found :
  find_plugins_loop W plugins C found
  = found ++ filter (λ p, isinstance W p C = true) plugins.
Proof.
  revert found. induction plugins as [| p ps IH]; intros found; simpl.
  - by rewrite app_nil_r.
  - rewrite IH, filter_cons.
    destruct (isinstance W p C) eqn:Hp; simpl.
    + by rewrite <- app_assoc.
    + done.
Qed.

End Queries.

(** ** The registry *)

Section RegistryFacts.
Context {E : Type}.
Implicit Type p : Process E.

Lemma registry_ok_start (e : E) : registry_ok (process_start e).
Proof.
  unfold registry_ok, process_start, _PLUGIN_MANAGERS. simpl.
  split; [by rewrite lookup_singleton_eq, dom_empty_L |].
  split; intros l; [rewrite dom_singleton_L | rewrite dom_empty_L]; set_solver by lia.
Qed.

Lemma registry_ok_new p :
  registry_ok p → registry_ok (PluginManager_new p).2.
Proof.
  intros (Hreg & Hsets & Hmgrs).
  unfold registry_ok, PluginManager_new, __init__, register, set_add,
    set_mutate. simpl.
  split; [| split].
  - rewrite lookup_alter_eq, Hreg. simpl. by rewrite dom_insert_L.
  - intros l. rewrite dom_alter_L. intros Hl. apply Hsets in Hl. lia.
  - intros l. rewrite dom_insert_L, elem_of_union, elem_of_singleton.
    intros [-> | Hl]; [lia |]. apply Hmgrs in Hl. lia.
Qed.

Lemma registry_ok_method {A} self (m : Py St A) p r p' :
  registry_ok p → method self m p = Some (r, p') → registry_ok p'.
Proof.
  intros (Hreg & Hsets & Hmgrs). unfold method.
  destruct (managers p !! self) as [pm|] eqn:Hself; [| done].
  destruct (m (pm, environ p)) as [[r' [pm' e']]|]; [| done].
  intros [= <- <-]. unfold registry_ok. simpl.
  assert (dom (<[self:=pm']> (managers p)) = dom (managers p)) as ->.
  { rewrite dom_insert_L. apply elem_of_dom_2 in Hself.
    apply subseteq_union_1_L. by apply singleton_subseteq_l. }
  done.
Qed.

Lemma registry_ok_register pm p :
  registry_ok p → pm ∈ dom (managers p) → registry_ok (register pm p).
Proof.
  intros (Hreg & Hsets & Hmgrs) Hpm.
  unfold registry_ok, register, set_add, set_mutate. simpl.
  split; [| split; [| done]].
  - rewrite lookup_alter_eq, Hreg. simpl. f_equal.
    apply subseteq_union_1_L. by apply singleton_subseteq_l.
  - intros l. rewrite dom_alter_L. apply Hsets.
Qed.

Lemma registry_in_use p :
  registry_ok p → _PLUGIN_MANAGERS < next_id p.
Proof. intros (Hreg & Hsets & _). apply Hsets. by eapply elem_of_dom_2. Qed.

Lemma registry_ok_snapshot p :
  registry_ok p → registry_ok (get_plugin_managers p).2.
Proof.
  intros Hok. pose proof (registry_in_use p Hok) as Hlt.
  destruct Hok as (Hreg & Hsets & Hmgrs).
  unfold registry_ok, get_plugin_managers, set_copy. simpl.
  split; [| split].
  - rewrite lookup_insert_ne by lia. done.
  - intros l. rewrite dom_insert_L, elem_of_union, elem_of_singleton.
    intros [-> | Hl]; [lia |]. apply Hsets in Hl. lia.
  - intros l Hl. apply Hmgrs in Hl. lia.
Qed.

Lemma registry_ok_mutate s f p :
  registry_ok p → s ≠ _PLUGIN_MANAGERS → registry_ok (set_mutate s f p).
Proof.
  intros (Hreg & Hsets & Hmgrs) Hs. unfold registry_ok, set_mutate. simpl.
  split; [| split; [| done]].
  - by rewrite lookup_alter_ne.
  - intros l. rewrite dom_alter_L. apply Hsets.
Qed.

Lemma reachable_ok p : reachable p → registry_ok p.
Proof.
  induction 1;
    eauto using registry_ok_start, registry_ok_new, registry_ok_method,
      registry_ok_register, registry_ok_snapshot, registry_ok_mutate.
Qed.

Lemma registered_ok p : registry_ok p → registered p = dom (managers p).
Proof. intros (Hreg & _). unfold registered. by rewrite Hreg. Qed.

End RegistryFacts.

(** ** What a pass loads *)

Section Loaded.
Context {E : Type} (W : World E).
Implicit Types (self : PluginManager) (e : E) (D : EntryPoint).

Local Abbreviation T := (managed_plugin_type W).

Lemma resolve_instance fuel V D s :
  isinstance W V T = true →
  _resolve_plugins W fuel V D s = Some (Ok [V], s).
Proof. intros HV. destruct fuel; simpl; by rewrite HV. Qed.



End Loaded.

(** * The claims *)

Section Claims.
Context {E : Type} (W : World E).
Implicit Types (self : PluginManager) (e : E) (D : EntryPoint).

Local Abbreviation T := (managed_plugin_type W).



(** C5.  When the value [V] that the entry point [D] loads is an instance
    of the managed type, its resolution is [[V]]; and after a load pass that
    returns, [_loaded] is made of what the entry points before [D] gave, then
    [V], once, then what the entry points after [D] gave. *)
Theorem instance_loaded_in_order fuel eps1 D eps2 V self e m1 e1 e2 self' e' :
  entry_points W (EP_GROUP W) e = eps1 ++ D :: eps2 →
  pass W fuel eps1 e = Some (Ok tt, (m1, e1)) →
  ep_load W D e1 = (Ok V, e2) →
  isinstance W V T = true →
  _load_plugins W fuel (self, e) = Some (Ok tt, (self', e')) →
  (∀ fuel' s, _resolve_plugins W fuel' V D s = Some (Ok [V], s))
  ∧ ∃ m2,
      pass W fuel eps2 e2 = Some (Ok tt, (m2, e'))
      ∧ _loaded self' = _loaded m1 ++ V :: _loaded m2.
Proof.
  intros Heps Hp1 Hload HV Hpass.
  split; [intros; by apply resolve_instance |].
  revert Hpass. rewrite load_plugins_eq, Heps, pass_app, Hp1, pass_cons.
  rewrite load_entry_point_eq, Hload, resolve_instance by done.
  destruct (pass W fuel eps2 e2) as [[[[]|err] [m2 e3]]|]; [| done..].
  simpl. intros [= <- <-]. by exists m2.
Qed.

(** C6.  When the value [V] that the entry point [D] loads is a subclass of
    the managed type, and no instance of it, the resolution calls [V] with
    [D] as its only argument and its result is the list of the one instance
    that this call returns. *)
Theorem resolve_plugin_type fuel V D self e plugin e' :
  isinstance W V T = false →
  isclass W V = true →
  issubclass W V T = true →
  call1 W V D e = (Ok plugin, e') →
  _instantiate_plugin_type W V D (self, e) = Some (Ok plugin, (self, e'))
  ∧ _resolve_plugins W fuel V D (self, e) = Some (Ok [plugin], (self, e')).
Proof.
  intros Hi Hc Hs Hcall. split.
  - unfold _instantiate_plugin_type, foreign. by rewrite Hcall.
  - destruct fuel; simpl; rewrite Hi, Hc, Hs; simpl;
      unfold bind, _instantiate_plugin_type, foreign; by rewrite Hcall.
Qed.


(** C8.  [get_plugins(force_reload)] runs [_load_plugins] when
    [force_reload] or [_needs_loading] is set, and returns [_loaded] as it
    is otherwise; after a load pass that returned, two calls of
    [get_plugins()] in a row return the same list and leave the manager and
    the environment as they were. *)
Theorem get_plugins_loads_when_needed fuel force_reload self e m e1 :
  _load_plugins W fuel (self, e) = Some (Ok tt, (m, e1)) →
  (∀ s, get_plugins W fuel force_reload s
        = if force_reload || _needs_loading s.1
          then (_load_plugins W fuel ;;;
                self <- get ;; ret (_loaded self.1)) s
          else Some (Ok (_loaded s.1), s))
  ∧ get_plugins W fuel force_reload (self, e)
    = (if force_reload || _needs_loading self
       then Some (Ok (_loaded m), (m, e1))
       else Some (Ok (_loaded self), (self, e)))
  ∧ (first <- get_plugins W fuel false ;;
     second <- get_plugins W fuel false ;;
     ret (first, second)) (m, e1)
    = Some (Ok (_loaded m, _loaded m), (m, e1)).
Proof.
  intros Hload. split; [| split].
  - intros [self0 e0]. rewrite get_plugins_eq. simpl.
    destruct (force_reload || _needs_loading self0); [| done].
    unfold bind, get.
    by destruct (_load_plugins W fuel (self0, e0)) as [[[[]|?] [? ?]]|].
  - by rewrite get_plugins_eq, Hload.
  - destruct (load_plugins_done W _ _ _ _ Hload) as [Hdone _].
    unfold bind. by rewrite !get_plugins_cached.
Qed.

(** C10.  When several plugins of the list that [get_plugins()] returns
    have the name asked for, [get_plugin] returns the one that comes first
    in the list, whatever comes after it. *)
Theorem get_plugin_first_match fuel n s l1 p l2 s' :
  get_plugins W fuel false s = Some (Ok (l1 ++ p :: l2), s') →
  Forall (λ q, ∃ m, plugin_name W q = Ok m ∧ m ≠ n) l1 →
  plugin_name W p = Ok n →
  get_plugin W fuel n s = Some (Ok p, s').
Proof.
  intros Hget Hl1 Hp. unfold get_plugin, bind at 1. rewrite Hget.
  by apply get_plugin_loop_first.
Qed.

End Claims.

(** C9.  In every process that a program can reach (by making managers,
    calling their methods, registering again a manager it has, taking
    snapshots of the registry and changing them), the registry holds exactly
    the managers made so far: a manager enters it when it is made, before any
    load, and no method call changes it; registering a manager that it holds
    leaves it as it is; and after two more managers [M1] and [M2] are made,
    [get_plugin_managers] returns a set object of its own that holds [M1] and
    [M2] besides the managers made before, which can be changed without
    changing the registry. *)
Theorem registry_holds_every_manager {E : Type} (p : Process E) :
  reachable p →
  let M1 := (PluginManager_new p).1 in
  let p1 := (PluginManager_new p).2 in
  let M2 := (PluginManager_new p1).1 in
  let p2 := (PluginManager_new p1).2 in
  let snapshot := (get_plugin_managers p2).1 in
  let p3 := (get_plugin_managers p2).2 in
  registered p = dom (managers p)
  ∧ ((M1 ∉ registered p) ∧ registered p1 = {[M1]} ∪ registered p
     ∧ managers p1 !! M1 = Some (mkPluginManager [] [] true))
  ∧ (∀ A self (m : Py St A) r p',
       method self m p = Some (r, p') → registered p' = registered p)
  ∧ (∀ pm, pm ∈ registered p → registered (register pm p) = registered p)
  ∧ M1 ≠ M2
  ∧ sets p3 !! snapshot = Some ({[M1; M2]} ∪ registered p)
  ∧ snapshot ≠ _PLUGIN_MANAGERS
  ∧ (∀ f, registered (set_mutate snapshot f p3) = registered p3)
  ∧ registered p3 = {[M1; M2]} ∪ registered p.
Proof.
  intros Hp M1 p1 M2 p2 snapshot p3.
  assert (Hok : registry_ok p) by by apply reachable_ok.
  assert (Hok1 : registry_ok p1) by by apply registry_ok_new.
  assert (Hok2 : registry_ok p2) by by apply registry_ok_new.
  assert (Hok3 : registry_ok p3) by by apply registry_ok_snapshot.
  assert (Hfresh : M1 ∉ dom (managers p)).
  { intros Hin. destruct Hok as (_ & _ & Hm). apply Hm in Hin.
    unfold M1 in Hin. simpl in Hin. lia. }
  assert (H1 : registered p1 = {[M1]} ∪ registered p).
  { rewrite !registered_ok by done. unfold p1, M1. simpl.
    by rewrite dom_insert_L. }
  assert (H2 : registered p2 = {[M1; M2]} ∪ registered p).
  { rewrite (registered_ok p2) by done. unfold p2, M2, p1, M1. simpl.
    rewrite !dom_insert_L, <- (registered_ok p) by done.
    rewrite union_assoc_L. f_equal. apply union_comm_L. }
  assert (Hsnap : snapshot ≠ _PLUGIN_MANAGERS).
  { pose proof (registry_in_use p2 Hok2). unfold snapshot. simpl in *. lia. }
  assert (H3 : registered p3 = registered p2).
  { unfold registered, p3. simpl. by rewrite lookup_insert_ne. }
  split; [by apply registered_ok |].
  split; [split; [by rewrite registered_ok | split; [done |]] |].
  { unfold p1, M1. simpl. by rewrite lookup_insert_eq. }
  split.
  { intros A self m r p' Hm.
    rewrite !registered_ok; eauto using registry_ok_method.
    unfold method in Hm.
    destruct (managers p !! self) as [pm|] eqn:Hself; [| done].
    destruct (m (pm, environ p)) as [[r' [pm' e']]|]; [| done].
    injection Hm as <- <-. simpl. rewrite dom_insert_L.
    apply elem_of_dom_2 in Hself.
    apply subseteq_union_1_L. by apply singleton_subseteq_l. }
  split.
  { intros pm Hpm. rewrite registered_ok in Hpm by done.
    rewrite !registered_ok; eauto using registry_ok_register. }
  split.
  { unfold M2, M1, p1. simpl. lia. }
  split.
  { change (sets p3 !! snapshot)
      with (<[next_id p2 := registered p2]> (sets p2) !! next_id p2).
    by rewrite lookup_insert_eq, H2. }
  split; [done |].
  split; [| by rewrite H3].
  intros f. unfold registered, set_mutate. simpl.
  by rewrite lookup_alter_ne.
Qed.

(** * The claims in the small world *)

Import Demo.

(** After any pass, the list of broken entry points is empty: nothing in
    [_load_plugins] is left to fill it. *)
Lemma load_pass_records_nothing {E : Type} (W : World E) fuel s r m e' :
  _load_plugins W fuel s = Some (r, (m, e')) → _broken m = [].
Proof.
  destruct s as [self e]. rewrite load_plugins_eq.
  destruct (pass W fuel _ e) as [[[[]|err] [m0 e0]]|]; [| | done];
    by intros [= <- <- <-].
Qed.

(** C1, on the code.  An entry point that fails to import, and one that
    loads a number, each end the pass over three entry points with their
    error: the plugin of the entry point before them is loaded, the entry
    point after them is not looked at, [_broken] stays empty and
    [_needs_loading] stays set. *)
Theorem load_pass_reraises :
  _load_plugins (world [ep "plugin"; ep "missing"; ep "factory"]) 1 (fresh, 0)
  = Some (Exn ImportError, (mkPluginManager [] [3] true, 0))
  ∧ _load_plugins (world [ep "plugin"; ep "number"; ep "factory"]) 1 (fresh, 0)
    = Some (Exn (ValueError (InvalidValue "demo" T)),
            (mkPluginManager [] [3] true, 0))
  ∧ _load_plugins (world [ep "plugin"; ep "factory"]) 1 (fresh, 0)
    = Some (Ok tt, (mkPluginManager [] [3; 3; 6] false, 0)).
Proof. repeat split; vm_compute; reflexivity. Qed.







(** C4, on the code.  With [raise_not_found=False], [find_plugins] raises
    its [ValueError] all the same, when no entry point is installed and when
    the only plugin is not of the asked type. *)
Theorem find_plugins_raises_when_told_not_to :
  find_plugins (world []) 0 T false (fresh, 0)
  = Some (Exn (ValueError (NoPluginOfType T [] [])),
          (mkPluginManager [] [] false, 0))
  ∧ find_plugins (world [ep "plugin"]) 0 2 false (fresh, 0)
    = Some (Exn (ValueError (NoPluginOfType 2 ["a"] [])),
            (mkPluginManager [] [3] false, 0))
  ∧ find_plugins (world [ep "plugin"]) 0 T false (fresh, 0)
    = Some (Ok [3], (mkPluginManager [] [3] false, 0)).
Proof. repeat split; vm_compute; reflexivity. Qed.

(** The plugin [3] between a class and a factory: it stands after the
    instance of the class and before the two plugins of the factory. *)
Lemma instance_loaded_in_order_witness :
  _load_plugins (world [ep "class"; ep "plugin"; ep "factory"]) 1 (fresh, 0)
  = Some (Ok tt, (mkPluginManager [] [100; 3; 3; 6] false, 1))
  ∧ _resolve_plugins (world [ep "class"; ep "plugin"; ep "factory"]) 0 3
      (ep "plugin") (fresh, 1)
    = Some (Ok [3], (fresh, 1))
  ∧ ∃ m2,
      pass (world [ep "class"; ep "plugin"; ep "factory"]) 1 [ep "factory"] 1
      = Some (Ok tt, (m2, 1))
      ∧ [100; 3; 3; 6] = [100] ++ 3 :: _loaded m2.
Proof.
  assert (Hload :
    _load_plugins (world [ep "class"; ep "plugin"; ep "factory"]) 1 (fresh, 0)
    = Some (Ok tt, (mkPluginManager [] [100; 3; 3; 6] false, 1)))
    by reflexivity.
  destruct (instance_loaded_in_order
              (world [ep "class"; ep "plugin"; ep "factory"]) 1
              [ep "class"] (ep "plugin") [ep "factory"] 3 fresh 0
              (mkPluginManager [] [100] true) 1 1
              (mkPluginManager [] [100; 3; 3; 6] false) 1
              eq_refl eq_refl eq_refl eq_refl Hload) as [Hres Hpos].
  split; [exact Hload |]. split; [apply Hres | exact Hpos].
Defined.

(** The class [2], once seven instances are made, gives the eighth. *)
Lemma resolve_plugin_type_witness :
  _resolve_plugins (world []) 0 2 (ep "class") (fresh, 7)
  = Some (Ok [107], (fresh, 8)).
Proof.
  apply (resolve_plugin_type (world []) 0 2 (ep "class") fresh 7 107 8);
    reflexivity.
Defined.


(** A manager that has never loaded loads on the first call, and the two
    calls that follow give the same list. *)
Lemma get_plugins_loads_when_needed_witness :
  get_plugins (world [ep "plugin"]) 0 false (fresh, 0)
  = Some (Ok [3], (mkPluginManager [] [3] false, 0))
  ∧ (first <- get_plugins (world [ep "plugin"]) 0 false ;;
     second <- get_plugins (world [ep "plugin"]) 0 false ;;
     ret (first, second)) (mkPluginManager [] [3] false, 0)
    = Some (Ok ([3], [3]), (mkPluginManager [] [3] false, 0)).
Proof.
  destruct (get_plugins_loads_when_needed (world [ep "plugin"]) 0 false
              fresh 0 (mkPluginManager [] [3] false) 0 eq_refl)
    as (_ & Hfirst & Htwice).
  split; [exact Hfirst | exact Htwice].
Defined.

(** Two instances of the same class have the same name: the one made first
    is returned. *)
Lemma get_plugin_first_match_witness :
  get_plugin (world [ep "plugin"; ep "class"; ep "class"]) 0 "pkg.Class"
    (fresh, 0)
  = Some (Ok 100, (mkPluginManager [] [3; 100; 101] false, 2)).
Proof.
  apply (get_plugin_first_match
           (world [ep "plugin"; ep "class"; ep "class"]) 0 "pkg.Class"
           (fresh, 0) [3] 100 [101]).
  - reflexivity.
  - constructor; [| constructor]. exists "a". split; [reflexivity | discriminate].
  - reflexivity.
Defined.

(** From the start of the process, the managers [1] and [2] are made and
    the snapshot, the set object [3], holds the two of them. *)
Lemma registry_holds_every_manager_witness :
  reachable (process_start tt)
  ∧ sets (get_plugin_managers
            (PluginManager_new (PluginManager_new (process_start tt)).2).2).2
      !! 3
    = Some {[1; 2]}.
Proof.
  split; [constructor |].
  destruct (registry_holds_every_manager (process_start tt) (reach_start tt))
    as (_ & _ & _ & _ & _ & Hsnapshot & _).
  cbv zeta in Hsnapshot. etrans; [exact Hsnapshot |]. reflexivity.
Defined.

(** * More of the module *)

(** ** How a resolution ends *)

Section Outcomes.
Context {E : Type} (W : World E).
Implicit Types (self : PluginManager) (e : E) (D : EntryPoint).

Local Abbreviation T := (managed_plugin_type W).

(** What the branches other than the third give, at once. *)
Lemma resolve_direct fuel v D self e :
  ¬ invocable W v →
  _resolve_plugins W fuel v D (self, e)
  = if isinstance W v T then Some (Ok [v], (self, e))
    else if isclass W v && issubclass W v T then
      match call1 W v D e with
      | (Ok plugin, e1) => Some (Ok [plugin], (self, e1))
      | (Exn err, e1) => Some (Exn err, (self, e1))
      end
    else
      match tuple_list_set W v with
      | Some plugins => Some (Ok plugins, (self, e))
      | None =>
          Some (Exn (ValueError (InvalidValue (EP_GROUP W) T)), (self, e))
      end.
Proof.
  intros Hn. destruct (resolve_not_invocable W fuel v D (self, e) Hn) as [-> _].
  simpl. destruct (isinstance W v T) eqn:Hi; [done |].
  destruct (isclass W v && issubclass W v T) eqn:Hc.
  { unfold bind, _instantiate_plugin_type, foreign.
    by destruct (call1 W v D e) as [[?|?] ?]. }
  destruct (callable W v) eqn:Hf; [by destruct Hn |].
  by destruct (tuple_list_set W v).
Qed.

(** Whatever the resolution ends with, it is what the resolution of the
    value at the end of a chain ends with, and that value stops the chain. *)
Lemma resolve_outcome fuel v D self e r s' :
  _resolve_plugins W fuel v D (self, e) = Some (r, s') →
  ∃ n v' e',
    n ≤ fuel ∧ chain W n v e v' e' ∧ stops W v' e'
    ∧ _resolve_plugins W 0 v' D (self, e') = Some (r, s').
Proof.
  intros Hres.
  destruct (resolve_finishes_chain W fuel v D self e) as (n & v' & e' & Hle & Hch & Hst).
  { rewrite Hres. eauto. }
  exists n, v', e'. split; [done |]. split; [done |]. split; [done |].
  rewrite <- Hres. replace fuel with (n + (fuel - n)) by lia.
  rewrite (resolve_chain W _ _ _ _ _ D self Hch).
  symmetry. by apply resolve_stops.
Qed.

(** X1.  When the resolution of [v] returns, a chain of invocations has
    led from [v] to a value [v'] of one of three kinds, and the result is the
    list of [v'] alone when [v'] is an instance of the managed type, the list
    of the one object that [v'(entry_point)] returned when [v'] is a subclass
    of the managed type, and the elements of [v'] when [v'] is a tuple, a list
    or a set; the manager is left as it was. *)
Theorem resolve_returns_three_shapes fuel v D self e plugins s' :
  _resolve_plugins W fuel v D (self, e) = Some (Ok plugins, s') →
  ∃ n v' e',
    n ≤ fuel ∧ chain W n v e v' e'
    ∧ ((isinstance W v' T = true ∧ plugins = [v'] ∧ s' = (self, e'))
       ∨ (isinstance W v' T = false
          ∧ isclass W v' && issubclass W v' T = true
          ∧ ∃ plugin e'',
              call1 W v' D e' = (Ok plugin, e'')
              ∧ plugins = [plugin] ∧ s' = (self, e''))
       ∨ (isinstance W v' T = false
          ∧ isclass W v' && issubclass W v' T = false
          ∧ callable W v' = false
          ∧ tuple_list_set W v' = Some plugins ∧ s' = (self, e'))).
Proof.
  intros Hres.
  destruct (resolve_outcome _ _ _ _ _ _ _ Hres) as (n & v' & e' & Hle & Hch & Hst & H0).
  exists n, v', e'. split; [done |]. split; [done |].
  destruct (invocable_dec W v') as [Hv | Hn].
  - rewrite resolve_invocable in H0 by done.
    destruct Hst as [Hn | (err & e1 & Hcall)]; [done |].
    rewrite Hcall in H0. done.
  - rewrite resolve_direct in H0 by done.
    destruct (isinstance W v' T) eqn:Hi.
    { injection H0 as <- <-. by left. }
    destruct (isclass W v' && issubclass W v' T) eqn:Hc.
    { destruct (call1 W v' D e') as [[plugin|err] e1] eqn:Hcall; [| done].
      injection H0 as <- <-. right. left. eauto 10. }
    destruct (tuple_list_set W v') as [l|] eqn:Hl; [| done].
    injection H0 as <- <-. right. right.
    destruct (callable W v') eqn:Hf; [| done].
    destruct Hn. done.
Qed.


End Outcomes.

(** ** Passes and the two lists *)

Section Passes.
Context {E : Type} (W : World E).
Implicit Types (self : PluginManager) (e : E) (D : EntryPoint).

Local Abbreviation T := (managed_plugin_type W).

Lemma resolve_on_any_manager fuel v D self0 self e r e' :
  _resolve_plugins W fuel v D (self0, e) = Some (r, (self0, e')) →
  _resolve_plugins W fuel v D (self, e) = Some (r, (self, e')).
Proof.
  rewrite (resolve_self W fuel v D self0), (resolve_self W fuel v D self).
  destruct (_resolve_plugins W fuel v D _) as [[r' [m e1]]|]; [| done].
  by intros [= <- <-].
Qed.

Lemma resolve_keeps_manager fuel v D self e r m e' :
  _resolve_plugins W fuel v D (self, e) = Some (r, (m, e')) → m = self.
Proof.
  rewrite resolve_self.
  destruct (_resolve_plugins W fuel v D _) as [[r' [m' e1]]|]; [| done].
  by intros [= <- <- <-].
Qed.

Lemma get_broken_plugins_eq fuel force_reload self e :
  get_broken_plugins W fuel force_reload (self, e)
  = if force_reload || _needs_loading self
    then match _load_plugins W fuel (self, e) with
         | Some (Ok _, (m, e')) => Some (Ok (_broken m), (m, e'))
         | Some (Exn err, s') => Some (Exn err, s')
         | None => None
         end
    else Some (Ok (_broken self), (self, e)).
Proof.
  unfold get_broken_plugins, bind, get. simpl.
  destruct (force_reload || _needs_loading self); [| done].
  by destruct (_load_plugins W fuel (self, e)) as [[[[]|?] [? ?]]|].
Qed.

(** X3.  Let a load pass return, and let the entry point [D] have loaded
    a value that resolved to the list [plugins], such as a factory returning
    two plugins.  Then [_loaded] is what the entry points before [D] gave,
    then [plugins] in the order of the resolution, then what the entry points
    after [D] gave. *)
Theorem resolved_plugins_loaded_in_order fuel eps1 D eps2 v plugins self e
    m1 e1 e2 e3 self' e' :
  entry_points W (EP_GROUP W) e = eps1 ++ D :: eps2 →
  pass W fuel eps1 e = Some (Ok tt, (m1, e1)) →
  ep_load W D e1 = (Ok v, e2) →
  _resolve_plugins W fuel v D (self, e2) = Some (Ok plugins, (self, e3)) →
  _load_plugins W fuel (self, e) = Some (Ok tt, (self', e')) →
  ∃ m2,
    pass W fuel eps2 e3 = Some (Ok tt, (m2, e'))
    ∧ _loaded self' = _loaded m1 ++ plugins ++ _loaded m2.
Proof.
  intros Heps Hp1 Hload Hres.
  rewrite load_plugins_eq, Heps, pass_app, Hp1, pass_cons.
  rewrite load_entry_point_eq, Hload.
  rewrite (resolve_on_any_manager _ _ _ _ (mkPluginManager [] [] true)
             _ _ _ Hres).
  destruct (pass W fuel eps2 e3) as [[[[]|err] [m2 e4]]|] eqn:Hp2; [| done..].
  simpl. intros [= <- <-]. by exists m2.
Qed.

(** X4.  A forced reload keeps nothing of what the manager held: the list
    that [get_plugins(force_reload=True)] returns, and the manager that it
    leaves, are the ones that a manager just made gets from its first
    [get_plugins()] in the same environment. *)
Theorem reload_replaces_wholesale fuel self e plugins s' :
  get_plugins W fuel true (self, e) = Some (Ok plugins, s') →
  get_plugins W fuel false (mkPluginManager [] [] true, e)
  = Some (Ok plugins, s')
  ∧ ∀ self0, get_plugins W fuel true (self0, e) = Some (Ok plugins, s').
Proof.
  rewrite !get_plugins_eq. simpl. rewrite !load_plugins_eq.
  destruct (pass W fuel _ e) as [[[[]|err] [m e1]]|] eqn:Hp; [| done..].
  simpl. intros [= <- <-]. split; [done |].
  intros self0. by rewrite get_plugins_eq, load_plugins_eq, Hp.
Qed.

(** X5.  [get_broken_plugins] and [get_plugins] keep the same cache: called
    on the same manager with the same flag, they run the same pass or none,
    raise the same error and leave the same manager and environment; and once
    either has returned, the other one, called without [force_reload],
    answers from the cache. *)
Theorem getters_share_the_cache fuel force_reload s :
  get_broken_plugins W fuel force_reload s
  = match get_plugins W fuel force_reload s with
    | Some (Ok _, s1) => Some (Ok (_broken s1.1), s1)
    | Some (Exn err, s1) => Some (Exn err, s1)
    | None => None
    end
  ∧ (∀ plugins s1,
       get_plugins W fuel force_reload s = Some (Ok plugins, s1) →
       get_broken_plugins W fuel false s1 = Some (Ok (_broken s1.1), s1))
  ∧ (∀ broken s1,
       get_broken_plugins W fuel force_reload s = Some (Ok broken, s1) →
       get_plugins W fuel false s1 = Some (Ok (_loaded s1.1), s1)).
Proof.
  destruct s as [self e]. split; [| split].
  - rewrite get_broken_plugins_eq, get_plugins_eq.
    destruct (force_reload || _needs_loading self); [| done].
    by destruct (_load_plugins W fuel (self, e)) as [[[[]|?] [? ?]]|].
  - intros plugins [m e1] Hget.
    destruct (get_plugins_Ok W _ _ _ _ _ _ Hget) as [_ Hdone].
    rewrite get_broken_plugins_eq. simpl. by rewrite Hdone.
  - intros broken [m e1]. rewrite get_broken_plugins_eq.
    destruct (force_reload || _needs_loading self) eqn:Hneeds.
    + destruct (_load_plugins W fuel (self, e)) as [[[[]|?] [m0 e0]]|] eqn:Hl;
        [| done..].
      intros [= <- <- <-]. apply get_plugins_cached.
      by eapply load_plugins_done.
    + intros [= <- <- <-]. apply get_plugins_cached.
      by apply orb_false_iff in Hneeds as [_ ?].
Qed.

(** X6.  When no entry point is installed for the group, the first
    [get_plugins()] and [get_broken_plugins()] of a manager return the empty
    list and leave the manager loaded, and [get_plugin] raises, for every
    name, the [ValueError] that lists no plugin and no error. *)
Theorem no_entry_point_installed fuel self e n type_name :
  entry_points W (EP_GROUP W) e = [] →
  _needs_loading self = true →
  plugin_type_name W T = Ok type_name →
  get_plugins W fuel false (self, e)
  = Some (Ok [], (mkPluginManager [] [] false, e))
  ∧ get_broken_plugins W fuel false (self, e)
    = Some (Ok [], (mkPluginManager [] [] false, e))
  ∧ get_plugin W fuel n (self, e)
    = Some (Exn (ValueError (NoPluginNamed type_name n [] [])),
            (mkPluginManager [] [] false, e)).
Proof.
  intros Heps Hneeds Htype.
  assert (Hget : get_plugins W fuel false (self, e)
                 = Some (Ok [], (mkPluginManager [] [] false, e))).
  { rewrite get_plugins_eq, Hneeds, load_plugins_eq, Heps. done. }
  split; [done |]. split.
  - rewrite get_broken_plugins_eq, Hneeds, load_plugins_eq, Heps. done.
  - unfold get_plugin, bind at 1. rewrite Hget. simpl.
    unfold bind, pure. rewrite Htype, get_plugins_cached by done. done.
Qed.

End Passes.

(** ** What the queries return *)

Section Answers.
Context {E : Type} (W : World E).
Implicit Types (self : PluginManager) (e : E) (D : EntryPoint).

Local Abbreviation T := (managed_plugin_type W).

(** A computation that ends with a [raise] never returns. *)
Lemma bind_never_returns {S A B} (m : Py S A) (k : A → Py S B) s b s' :
  (∀ a s1 s2, k a s1 ≠ Some (Ok b, s2)) →
  bind m k s ≠ Some (Ok b, s').
Proof.
  intros Hk. unfold bind. destruct (m s) as [[[a|err] s1]|]; [| done..].
  apply Hk.
Qed.

(** When the statement after the loop never returns, what the loop returns
    is the first plugin of the name. *)
Lemma get_plugin_loop_returns plugins n not_found p :
  (∀ s s', not_found s ≠ Some (Ok p, s')) →
  ∀ s s',
    get_plugin_loop W plugins n not_found s = Some (Ok p, s') →
    s' = s
    ∧ ∃ l1 l2,
        plugins = l1 ++ p :: l2
        ∧ Forall (λ q, ∃ m, plugin_name W q = Ok m ∧ m ≠ n) l1
        ∧ plugin_name W p = Ok n.
Proof.
  intros Hnf. induction plugins as [| q plugins IH]; intros s s'; simpl.
  - intros H. by apply Hnf in H.
  - unfold bind, pure. destruct (plugin_name W q) as [m|err] eqn:Hq; [| done].
    destruct (String.eqb m n) eqn:Hm.
    + apply String.eqb_eq in Hm as ->. intros [= <- <-].
      split; [done |]. exists [], plugins. by repeat split.
    + intros H. destruct (IH _ _ H) as (-> & l1 & l2 & -> & Hl1 & Hp).
      split; [done |]. exists (q :: l1), l2. split; [done |].
      split; [| done]. constructor; [| done].
      exists m. split; [done |]. by apply String.eqb_neq.
Qed.

Lemma filter_all {A} (P : A → Prop) `{∀ x, Decision (P x)} (l : list A) :
  Forall P l → filter P l = l.
Proof.
  induction 1 as [| x l Hx _ IH]; [done |].
  rewrite filter_cons, decide_True by done. by rewrite IH.
Qed.

Lemma find_plugins_eq fuel C raise_not_found s plugins s' :
  get_plugins W fuel false s = Some (Ok plugins, s') →
  find_plugins W fuel C raise_not_found s
  = match filter (λ p, isinstance W p C = true) plugins with
    | [] =>
        match plugin_names W plugins s' with
        | Some (Ok got, s'') =>
            Some (Exn (ValueError (NoPluginOfType C got (_broken s''.1))), s'')
        | Some (Exn err, s'') => Some (Exn err, s'')
        | None => None
        end
    | found => Some (Ok found, s')
    end.
Proof.
  intros Hget. destruct s' as [m e'].
  destruct (get_plugins_Ok W _ _ _ _ _ _ Hget) as [-> Hdone].
  unfold find_plugins, bind at 1. rewrite Hget.
  rewrite find_plugins_loop_filter. simpl.
  destruct (filter _ (_loaded m)); [| done].
  unfold bind. rewrite get_plugins_cached by done.
  destruct (plugin_names W (_loaded m) (m, e')) as [[[got|err] s'']|]; done.
Qed.

(** X7.  What [get_plugin] returns is a plugin of the list that
    [get_plugins()] returns, the first one of this list whose
    [plugin_name()] is the name asked for, and the plugins before it have all
    answered [plugin_name()] with another name; the manager and the
    environment are left as [get_plugins()] leaves them. *)
Theorem get_plugin_returns_first_named fuel n s p s' :
  get_plugin W fuel n s = Some (Ok p, s') →
  ∃ l1 l2,
    get_plugins W fuel false s = Some (Ok (l1 ++ p :: l2), s')
    ∧ Forall (λ q, ∃ m, plugin_name W q = Ok m ∧ m ≠ n) l1
    ∧ plugin_name W p = Ok n.
Proof.
  unfold get_plugin, bind at 1.
  destruct (get_plugins W fuel false s) as [[[plugins|err] s1]|]; [| done..].
  intros Hloop. apply get_plugin_loop_returns in Hloop.
  - destruct Hloop as (-> & l1 & l2 & -> & Hl1 & Hp). by exists l1, l2.
  - intros s2 s3. repeat (apply bind_never_returns; intros).
    done.
Qed.

(** X8.  Let [get_plugins()] return the list [plugins].  When some plugin
    of [plugins] is an instance of [PluginType], [find_plugins(PluginType)]
    returns these instances, all of them, in the order of [plugins], with the
    manager and the environment as [get_plugins()] leaves them; and a list
    that [find_plugins(PluginType)] returns, called with
    [raise_not_found=True], is never empty and is made in this way. *)
Theorem find_plugins_returns_the_instances fuel C raise_not_found s plugins s' :
  get_plugins W fuel false s = Some (Ok plugins, s') →
  (filter (λ p, isinstance W p C = true) plugins ≠ [] →
   find_plugins W fuel C raise_not_found s
   = Some (Ok (filter (λ p, isinstance W p C = true) plugins), s'))
  ∧ (∀ found s'',
       find_plugins W fuel C true s = Some (Ok found, s'') →
       found = filter (λ p, isinstance W p C = true) plugins
       ∧ found ≠ [] ∧ s'' = s').
Proof.
  intros Hget. rewrite !(find_plugins_eq _ _ _ _ _ _ Hget).
  destruct (filter _ plugins) as [| p l] eqn:Hf.
  - split; [done |]. intros found s''.
    by destruct (plugin_names W plugins s') as [[[got|err] s1]|].
  - split; [done |]. by intros found s'' [= <- <-].
Qed.

(** X9.  When the list that [get_plugins()] returns is not empty and holds
    instances of the managed type only, [find_plugins] asked for the managed
    type returns the whole list. *)
Theorem find_plugins_of_managed_type fuel raise_not_found s plugins s' :
  get_plugins W fuel false s = Some (Ok plugins, s') →
  managed W plugins →
  plugins ≠ [] →
  find_plugins W fuel T raise_not_found s = Some (Ok plugins, s').
Proof.
  intros Hget Hmanaged Hne. rewrite (find_plugins_eq _ _ _ _ _ _ Hget).
  rewrite filter_all by done. by destruct plugins.
Qed.

(** X10.  A plugin that [get_plugin] returns, and that is an instance of
    [PluginType], is in the list that [find_plugins(PluginType)] returns on
    the same manager, and [find_plugins] does return. *)
Theorem get_plugin_agrees_with_find_plugins fuel n C raise_not_found s p s' :
  get_plugin W fuel n s = Some (Ok p, s') →
  isinstance W p C = true →
  ∃ found,
    find_plugins W fuel C raise_not_found s = Some (Ok found, s')
    ∧ p ∈ found.
Proof.
  intros Hget Hp. unfold get_plugin, bind at 1 in Hget.
  destruct (get_plugins W fuel false s) as [[[plugins|err] s1]|] eqn:Hps;
    [| done..].
  apply get_plugin_loop_returns in Hget.
  2: { intros s2 s3. repeat (apply bind_never_returns; intros). done. }
  destruct Hget as (-> & l1 & l2 & -> & _ & _).
  rewrite (find_plugins_eq _ _ _ _ _ _ Hps).
  assert (Hin : p ∈ filter (λ p, isinstance W p C = true) (l1 ++ p :: l2)).
  { apply list_elem_of_filter. split; [done |].
    apply elem_of_app. right. by left. }
  destruct (filter _ (l1 ++ p :: l2)) as [| q l] eqn:Hf.
  - by apply not_elem_of_nil in Hin.
  - by exists (q :: l).
Qed.

(** The loop raises what [plugin_name()] raises, on the way to a plugin of
    the name. *)
Lemma get_plugin_loop_error l1 q l2 n not_found err s :
  Forall (λ q, ∃ m, plugin_name W q = Ok m ∧ m ≠ n) l1 →
  plugin_name W q = Exn err →
  get_plugin_loop W (l1 ++ q :: l2) n not_found s = Some (Exn err, s).
Proof.
  intros Hl1 Hq. induction Hl1 as [| q' l1 (m & Hq' & Hne) _ IH]; simpl.
  - unfold bind, pure. by rewrite Hq.
  - unfold bind, pure. rewrite Hq'.
    apply String.eqb_neq in Hne. by rewrite Hne.
Qed.

(** X16.  [get_plugin] raises the errors of the calls that it makes, as
    they are.  When an element of the list that [get_plugins()] returns
    raises in [plugin_name()], such as a value that is no plugin, and no
    element before it has the name asked for, [get_plugin] raises that error;
    and when no element has the name asked for and the [plugin_type_name()]
    of the managed type raises, as the one of [Plugin] does, [get_plugin]
    raises that error, and not its own [ValueError]. *)
Theorem get_plugin_passes_errors_on fuel n s plugins s' :
  get_plugins W fuel false s = Some (Ok plugins, s') →
  (∀ l1 q l2 err,
     plugins = l1 ++ q :: l2 →
     Forall (λ q, ∃ m, plugin_name W q = Ok m ∧ m ≠ n) l1 →
     plugin_name W q = Exn err →
     get_plugin W fuel n s = Some (Exn err, s'))
  ∧ (∀ err,
       Forall (λ q, ∃ m, plugin_name W q = Ok m ∧ m ≠ n) plugins →
       plugin_type_name W T = Exn err →
       get_plugin W fuel n s = Some (Exn err, s')).
Proof.
  intros Hget. unfold get_plugin. split.
  - intros l1 q l2 err -> Hl1 Hq. unfold bind at 1. rewrite Hget.
    by apply get_plugin_loop_error.
  - intros err Hall Htype. unfold bind at 1. rewrite Hget.
    rewrite get_plugin_loop_none by done.
    unfold bind, pure. by rewrite Htype.
Qed.

End Answers.

(** ** The registry over time *)

Section RegistryOverTime.
Context {E : Type}.
Implicit Type p : Process E.

Lemma step_reachable frozen p p' : reachable p → step frozen p p' → reachable p'.
Proof.
  intros Hp Hstep. destruct Hstep;
    eauto using reach_new, reach_method, reach_register, reach_snapshot,
      reach_mutate.
Qed.

Lemma step_managers frozen p p' :
  step frozen p p' → dom (managers p) ⊆ dom (managers p').
Proof.
  intros Hstep. destruct Hstep as [p | A self m p r p' Hm | | |]; simpl;
    try done.
  - rewrite dom_insert_L. apply union_subseteq_r.
  - unfold method in Hm.
    destruct (managers p !! self) as [pm|]; [| done].
    destruct (m (pm, environ p)) as [[r' [pm' e']]|]; [| done].
    injection Hm as <- <-. simpl. rewrite dom_insert_L.
    apply union_subseteq_r.
Qed.

(** A set object other than the registry that is in use and frozen is the
    same after a step, and still in use. *)
Lemma step_frozen frozen s p p' :
  step frozen p p' →
  s ∈ frozen → s ≠ _PLUGIN_MANAGERS → s < next_id p →
  sets p' !! s = sets p !! s ∧ s < next_id p'.
Proof.
  intros Hstep Hs Hne Hlt.
  destruct Hstep as [p | A self m p r p' Hm | | | s' f p Hs' Hfree]; simpl.
  - split; [| lia]. by rewrite lookup_alter_ne.
  - unfold method in Hm.
    destruct (managers p !! self) as [pm|]; [| done].
    destruct (m (pm, environ p)) as [[r' [pm' e']]|]; [| done].
    by injection Hm as <- <-.
  - split; [| done]. by rewrite lookup_alter_ne.
  - split; [| lia]. rewrite lookup_insert_ne; [done | lia].
  - split; [| done]. rewrite lookup_alter_ne; [done |]. by intros ->.
Qed.

(** X11.  Whatever a program does from a process that it can reach, the
    registry loses no manager: it holds, after any number of steps, every
    manager that it held before them, and every manager made on the way. *)
Theorem registry_only_grows frozen p p' :
  reachable p →
  steps frozen p p' →
  reachable p'
  ∧ registered p ⊆ registered p'
  ∧ registered p' = dom (managers p').
Proof.
  intros Hp Hsteps. induction Hsteps as [p | p p1 p' Hstep _ IH].
  - split; [done |]. split; [done |]. by apply registered_ok, reachable_ok.
  - pose proof (step_reachable _ _ _ Hp Hstep) as Hp1.
    destruct (IH Hp1) as (Hp' & Hsub & Hdom).
    split; [done |]. split; [| done].
    etrans; [| exact Hsub].
    rewrite !registered_ok by by apply reachable_ok.
    by eapply step_managers.
Qed.

(** X12.  The set that [get_plugin_managers] returns holds the managers
    registered when it was called, and goes on holding exactly these,
    whatever managers are made and registered afterwards, as long as the
    program does not change that set itself. *)
Theorem snapshot_keeps_its_managers frozen p p' :
  reachable p →
  (get_plugin_managers p).1 ∈ frozen →
  steps frozen (get_plugin_managers p).2 p' →
  sets p' !! (get_plugin_managers p).1 = Some (registered p).
Proof.
  intros Hp Hfrozen Hsteps.
  pose proof (registry_in_use p (reachable_ok p Hp)) as Huse.
  assert (Hnow : sets (get_plugin_managers p).2 !! (get_plugin_managers p).1
                 = Some (registered p)).
  { simpl. by rewrite lookup_insert_eq. }
  assert (Hlt : (get_plugin_managers p).1 < next_id (get_plugin_managers p).2).
  { simpl. lia. }
  assert (Hne : (get_plugin_managers p).1 ≠ _PLUGIN_MANAGERS).
  { simpl. lia. }
  revert Hnow Hlt.
  generalize (get_plugin_managers p).2 (get_plugin_managers p).1 Hsteps Hfrozen Hne.
  clear. intros p0 s Hsteps Hfrozen Hne.
  induction Hsteps as [p0 | p0 p1 p' Hstep _ IH]; intros Hnow Hlt; [done |].
  destruct (step_frozen _ _ _ _ Hstep Hfrozen Hne Hlt) as [Hsame Hlt1].
  apply IH; [by rewrite Hsame | done].
Qed.

End RegistryOverTime.

(** ** What names a plugin *)

Section Names.

Lemma append_at_inj t1 t2 n1 n2 :
  Plugin.occurs "@"%char t1 = false →
  Plugin.occurs "@"%char t2 = false →
  t1 +:+ "@" +:+ n1 = t2 +:+ "@" +:+ n2 →
  t1 = t2 ∧ n1 = n2.
Proof.
  assert (Hnil : ∀ s, "" +:+ s = s) by done.
  assert (Hcons : ∀ c s s', String c s +:+ s' = String c (s +:+ s')) by done.
  assert (Hoccurs : ∀ c s,
    Plugin.occurs "@"%char (String c s)
    = Ascii.eqb "@"%char c || Plugin.occurs "@"%char s) by done.
  revert t2. induction t1 as [| c1 t1 IH]; intros [| c2 t2] H1 H2;
    rewrite ?Hnil, ?Hcons, ?Hnil; intros Heq.
  - by injection Heq as ->.
  - rewrite Hoccurs in H2. apply orb_false_iff in H2 as [Hc _].
    apply Ascii.eqb_neq in Hc. injection Heq as Hc' _. done.
  - rewrite Hoccurs in H1. apply orb_false_iff in H1 as [Hc _].
    apply Ascii.eqb_neq in Hc. injection Heq as Hc' _. done.
  - rewrite Hoccurs in H1, H2.
    apply orb_false_iff in H1 as [_ H1]. apply orb_false_iff in H2 as [_ H2].
    injection Heq as -> Heq. destruct (IH t2 H1 H2 Heq) as [-> ->]. done.
Qed.

(** X13.  [plugin_info()] raises what [plugin_id()] raises, which is
    [NotImplementedError] for a class that has no [plugin_type_name] of its
    own; when [plugin_id()] returns, [plugin_info()] returns a dictionary of
    the four keys [plugin_type_name], [plugin_name], [plugin_id] and
    [entry_point], whose id is the type name, an [@] and the name that the
    dictionary holds, and whose entry point is the one that the plugin was
    made with. *)
Theorem plugin_info_shape (cls : Plugin.class) (ep : EntryPoint) :
  (Plugin.own_plugin_type_name cls = None →
   Plugin.plugin_info (Plugin.__init__ cls ep) = Exn NotImplementedError)
  ∧ (∀ err,
       Plugin.plugin_id cls = Exn err →
       Plugin.plugin_info (Plugin.__init__ cls ep) = Exn err)
  ∧ (∀ id,
       Plugin.plugin_id cls = Ok id →
       ∃ info type_name name,
         Plugin.plugin_info (Plugin.__init__ cls ep) = Ok info
         ∧ dom info
           = {["plugin_type_name"; "plugin_name"; "plugin_id"; "entry_point"]}
         ∧ info !! "plugin_type_name" = Some (Plugin.Str type_name)
         ∧ info !! "plugin_name" = Some (Plugin.Str name)
         ∧ info !! "plugin_id" = Some (Plugin.Str id)
         ∧ info !! "entry_point" = Some (Plugin.Ep ep)
         ∧ id = type_name +:+ "@" +:+ name).
Proof.
  unfold Plugin.plugin_info, Plugin.plugin_id, Plugin.plugin_type_name,
    Plugin.and_then. simpl.
  split; [by intros -> |]. split.
  - intros err.
    destruct (Plugin.own_plugin_type_name cls) as [[t|err']|];
      [| by intros [= ->] ..].
    destruct (Plugin.plugin_name cls) as [n|err']; [done | by intros [= ->]].
  - intros id.
    destruct (Plugin.own_plugin_type_name cls) as [[t|err']|]; [| done..].
    destruct (Plugin.plugin_name cls) as [n|err']; [| done].
    intros [= <-]. eexists _, t, n. split; [done |].
    split; [| by repeat split].
    rewrite !dom_insert_L, dom_empty_L. set_solver.
Qed.

(** X14.  Two classes whose [plugin_type_name()] holds no [@] have the same
    [plugin_id()] only when they have the same type name and the same
    name. *)
Theorem plugin_id_tells_plugins_apart (cls1 cls2 : Plugin.class)
    t1 n1 t2 n2 :
  Plugin.plugin_type_name cls1 = Ok t1 →
  Plugin.plugin_name cls1 = Ok n1 →
  Plugin.plugin_type_name cls2 = Ok t2 →
  Plugin.plugin_name cls2 = Ok n2 →
  Plugin.occurs "@"%char t1 = false →
  Plugin.occurs "@"%char t2 = false →
  Plugin.plugin_id cls1 = Plugin.plugin_id cls2 →
  t1 = t2 ∧ n1 = n2.
Proof.
  intros Ht1 Hn1 Ht2 Hn2 H1 H2. unfold Plugin.plugin_id.
  rewrite Ht1, Hn1, Ht2, Hn2. unfold Plugin.and_then. intros [= Heq].
  by eapply append_at_inj.
Qed.

Lemma occurs_app_cons c s1 s2 : Plugin.occurs c (s1 +:+ String c s2) = true.
Proof.
  assert (Hnil : ∀ s, "" +:+ s = s) by done.
  assert (Hcons : ∀ c s s', String c s +:+ s' = String c (s +:+ s')) by done.
  induction s1 as [| c1 s1 IH]; rewrite ?Hnil, ?Hcons.
  - change (Ascii.eqb c c || Plugin.occurs c s2 = true).
    by rewrite Ascii.eqb_refl.
  - change (Ascii.eqb c c1 || Plugin.occurs c (s1 +:+ String c s2) = true).
    rewrite IH. apply orb_true_r.
Qed.

Lemma append_dot_inj m1 m2 n1 n2 :
  Plugin.occurs "."%char n1 = false →
  Plugin.occurs "."%char n2 = false →
  m1 +:+ "." +:+ n1 = m2 +:+ "." +:+ n2 →
  m1 = m2 ∧ n1 = n2.
Proof.
  assert (Hnil : ∀ s, "" +:+ s = s) by done.
  assert (Hcons : ∀ c s s', String c s +:+ s' = String c (s +:+ s')) by done.
  intros H1 H2.
  revert m2. induction m1 as [| c1 m1 IH]; intros [| c2 m2];
    rewrite ?Hnil, ?Hcons, ?Hnil; intros Heq.
  - by injection Heq as ->.
  - injection Heq as _ Heq. rewrite Heq, occurs_app_cons in H1. done.
  - injection Heq as _ Heq. rewrite <- Heq, occurs_app_cons in H2. done.
  - injection Heq as -> Heq. destruct (IH m2 Heq) as [-> ->]. done.
Qed.

(** X15.  Two classes that take their [plugin_name()] from [Plugin], and
    whose own names hold no dot, have the same plugin name only when they
    are defined under the same module and the same name. *)
Theorem default_plugin_name_tells_classes_apart (cls1 cls2 : Plugin.class) :
  Plugin.own_plugin_name cls1 = None →
  Plugin.own_plugin_name cls2 = None →
  Plugin.occurs "."%char (Plugin.__name__ cls1) = false →
  Plugin.occurs "."%char (Plugin.__name__ cls2) = false →
  Plugin.plugin_name cls1 = Plugin.plugin_name cls2 →
  Plugin.__module__ cls1 = Plugin.__module__ cls2
  ∧ Plugin.__name__ cls1 = Plugin.__name__ cls2.
Proof.
  intros Hown1 Hown2 H1 H2. unfold Plugin.plugin_name.
  rewrite Hown1, Hown2. intros [= Heq]. by eapply append_dot_inj.
Qed.

End Names.

(** * More of the module in the small world *)

(** The factory [4] resolves to the two plugins of the list that it
    returns, after one invocation. *)
Lemma resolve_returns_three_shapes_witness :
  _resolve_plugins (world []) 1 4 (ep "factory") (fresh, 0)
  = Some (Ok [3; 6], (fresh, 0))
  ∧ ∃ n v' e',
      n ≤ 1 ∧ chain (world []) n 4 0 v' e'
      ∧ (isinstance (world []) v' T = true
         ∨ isclass (world []) v' && issubclass (world []) v' T = true
         ∨ tuple_list_set (world []) v' = Some [3; 6]).
Proof.
  split; [reflexivity |].
  destruct (resolve_returns_three_shapes (world []) 1 4 (ep "factory") fresh 0
              [3; 6] (fresh, 0) eq_refl)
    as (n & v' & e' & Hle & Hchain & [Hi | [Hc | Hl]]).
  - exists n, v', e'. split; [exact Hle |]. split; [exact Hchain |].
    left. apply Hi.
  - exists n, v', e'. split; [exact Hle |]. split; [exact Hchain |].
    right. left. apply Hc.
  - exists n, v', e'. split; [exact Hle |]. split; [exact Hchain |].
    right. right. apply Hl.
Defined.


(** A class, a factory and a plugin: the two plugins of the factory stand
    between the instance of the class and the plugin. *)
Lemma resolved_plugins_loaded_in_order_witness :
  _load_plugins (world [ep "class"; ep "factory"; ep "plugin"]) 1 (fresh, 0)
  = Some (Ok tt, (mkPluginManager [] [100; 3; 6; 3] false, 1))
  ∧ ∃ m2,
      pass (world [ep "class"; ep "factory"; ep "plugin"]) 1 [ep "plugin"] 1
      = Some (Ok tt, (m2, 1))
      ∧ [100; 3; 6; 3] = [100] ++ [3; 6] ++ _loaded m2.
Proof.
  split; [reflexivity |].
  apply (resolved_plugins_loaded_in_order
           (world [ep "class"; ep "factory"; ep "plugin"]) 1
           [ep "class"] (ep "factory") [ep "plugin"] 4 [3; 6] fresh 0
           (mkPluginManager [] [100] true) 1 1 1
           (mkPluginManager [] [100; 3; 6; 3] false) 1);
    reflexivity.
Defined.

(** A manager that holds two stale plugins reloads to what a new manager
    loads. *)
Lemma reload_replaces_wholesale_witness :
  get_plugins (world [ep "plugin"]) 0 true
    (mkPluginManager [] [6; 6] false, 0)
  = Some (Ok [3], (mkPluginManager [] [3] false, 0))
  ∧ get_plugins (world [ep "plugin"]) 0 false (fresh, 0)
    = Some (Ok [3], (mkPluginManager [] [3] false, 0)).
Proof.
  split; [reflexivity |].
  apply (reload_replaces_wholesale (world [ep "plugin"]) 0
           (mkPluginManager [] [6; 6] false) 0 [3]
           (mkPluginManager [] [3] false, 0) eq_refl).
Defined.

(** After the first [get_plugins()], [get_broken_plugins()] loads
    nothing. *)
Lemma getters_share_the_cache_witness :
  get_broken_plugins (world [ep "plugin"]) 0 false
    (mkPluginManager [] [3] false, 0)
  = Some (Ok [], (mkPluginManager [] [3] false, 0)).
Proof.
  destruct (getters_share_the_cache (world [ep "plugin"]) 0 false (fresh, 0))
    as (_ & Hthen & _).
  apply (Hthen [3] (mkPluginManager [] [3] false, 0) eq_refl).
Defined.

(** With no entry point, nothing is found under any name. *)
Lemma no_entry_point_installed_witness :
  get_plugin (world []) 0 "a" (fresh, 0)
  = Some (Exn (ValueError (NoPluginNamed "demo" "a" [] [])),
          (mkPluginManager [] [] false, 0)).
Proof.
  apply (no_entry_point_installed (world []) 0 fresh 0 "a" "demo");
    reflexivity.
Defined.

(** The plugin returned for [b] is the third of the list, after two plugins
    called [a]. *)
Lemma get_plugin_returns_first_named_witness :
  ∃ l1 l2,
    get_plugins (world [ep "plugin"; ep "factory"]) 1 false (fresh, 0)
    = Some (Ok (l1 ++ 6 :: l2), (mkPluginManager [] [3; 3; 6] false, 0))
    ∧ plugin_name (world [ep "plugin"; ep "factory"]) 6 = Ok "b".
Proof.
  destruct (get_plugin_returns_first_named
              (world [ep "plugin"; ep "factory"]) 1 "b" (fresh, 0) 6
              (mkPluginManager [] [3; 3; 6] false, 0) eq_refl)
    as (l1 & l2 & Hget & _ & Hname).
  exists l1, l2. split; [exact Hget | exact Hname].
Defined.

(** Of a plugin and an instance of the class [2], the instance alone is
    found when the class [2] is asked for. *)
Lemma find_plugins_returns_the_instances_witness :
  find_plugins (world [ep "plugin"; ep "class"]) 0 2 true (fresh, 0)
  = Some (Ok [100], (mkPluginManager [] [3; 100] false, 1)).
Proof.
  destruct (find_plugins_returns_the_instances
              (world [ep "plugin"; ep "class"]) 0 2 true (fresh, 0) [3; 100]
              (mkPluginManager [] [3; 100] false, 1) eq_refl) as [Hfound _].
  apply Hfound. discriminate.
Defined.

(** The two of them are found when the managed type is asked for. *)
Lemma find_plugins_of_managed_type_witness :
  find_plugins (world [ep "plugin"; ep "class"]) 0 T true (fresh, 0)
  = Some (Ok [3; 100], (mkPluginManager [] [3; 100] false, 1)).
Proof.
  apply (find_plugins_of_managed_type
           (world [ep "plugin"; ep "class"]) 0 true (fresh, 0) [3; 100]
           (mkPluginManager [] [3; 100] false, 1) eq_refl).
  - repeat constructor.
  - discriminate.
Defined.

(** The instance found under the name of its class is found under its
    class. *)
Lemma get_plugin_agrees_with_find_plugins_witness :
  ∃ found,
    find_plugins (world [ep "plugin"; ep "class"]) 0 2 true (fresh, 0)
    = Some (Ok found, (mkPluginManager [] [3; 100] false, 1))
    ∧ 100 ∈ found.
Proof.
  apply (get_plugin_agrees_with_find_plugins
           (world [ep "plugin"; ep "class"]) 0 "pkg.Class" 2 true (fresh, 0)
           100 (mkPluginManager [] [3; 100] false, 1));
    reflexivity.
Defined.

(** Making a manager is a step from the start of the process, and the
    registry of the start is within the registry after it. *)
Lemma registry_only_grows_witness :
  steps ∅ (process_start tt) (PluginManager_new (process_start tt)).2
  ∧ registered (process_start tt)
    ⊆ registered (PluginManager_new (process_start tt)).2.
Proof.
  assert (Hsteps : steps ∅ (process_start tt)
                     (PluginManager_new (process_start tt)).2).
  { apply rtc_once. constructor. }
  split; [exact Hsteps |].
  destruct (registry_only_grows ∅ (process_start tt)
              (PluginManager_new (process_start tt)).2
              (reach_start tt) Hsteps) as (_ & Hsub & _).
  exact Hsub.
Defined.

(** The snapshot of the start of the process, the set object [1], is still
    empty once a manager is made. *)
Lemma snapshot_keeps_its_managers_witness :
  sets (PluginManager_new (get_plugin_managers (process_start tt)).2).2 !! 1
  = Some (registered (process_start tt)).
Proof.
  apply (snapshot_keeps_its_managers {[1]} (process_start tt)
           (PluginManager_new (get_plugin_managers (process_start tt)).2).2
           (reach_start tt)).
  - apply elem_of_singleton. reflexivity.
  - apply rtc_once. constructor.
Defined.

(** A plugin class with a type name and no name of its own, and the plugin
    made of it with an entry point. *)
Lemma plugin_info_shape_witness :
  ∃ info,
    Plugin.plugin_info
      (Plugin.__init__ (Plugin.mkClass "pkg.mod" "Tool" (Some (Ok "tools")) None)
         (ep "tool"))
    = Ok info
    ∧ info !! "plugin_id" = Some (Plugin.Str "tools@pkg.mod.Tool")
    ∧ info !! "entry_point" = Some (Plugin.Ep (ep "tool")).
Proof.
  destruct (plugin_info_shape
              (Plugin.mkClass "pkg.mod" "Tool" (Some (Ok "tools")) None)
              (ep "tool")) as (_ & _ & Hinfo).
  destruct (Hinfo "tools@pkg.mod.Tool" eq_refl)
    as (info & type_name & name & Hi & _ & _ & _ & Hid & Hep & _).
  exists info. split; [exact Hi |]. split; [exact Hid | exact Hep].
Defined.

(** A class named by its module and its own name, and a class that gives
    the same name by a [plugin_name] of its own, have the same id. *)
Lemma plugin_id_tells_plugins_apart_witness :
  Plugin.plugin_id (Plugin.mkClass "pkg.mod" "Tool" (Some (Ok "tools")) None)
  = Plugin.plugin_id
      (Plugin.mkClass "other" "Other" (Some (Ok "tools"))
         (Some (Ok "pkg.mod.Tool")))
  ∧ "tools" = "tools" ∧ "pkg.mod.Tool" = "pkg.mod.Tool".
Proof.
  split; [reflexivity |].
  apply (plugin_id_tells_plugins_apart
           (Plugin.mkClass "pkg.mod" "Tool" (Some (Ok "tools")) None)
           (Plugin.mkClass "other" "Other" (Some (Ok "tools"))
              (Some (Ok "pkg.mod.Tool"))));
    reflexivity.
Defined.

(** A class with no type name and a class with one, both defined as
    [pkg.mod.Tool] and neither with a name of its own, have the same plugin
    name. *)
Lemma default_plugin_name_tells_classes_apart_witness :
  Plugin.plugin_name (Plugin.mkClass "pkg.mod" "Tool" None None)
  = Plugin.plugin_name (Plugin.mkClass "pkg.mod" "Tool" (Some (Ok "tools")) None)
  ∧ "pkg.mod" = "pkg.mod" ∧ "Tool" = "Tool".
Proof.
  split; [reflexivity |].
  apply (default_plugin_name_tells_classes_apart
           (Plugin.mkClass "pkg.mod" "Tool" None None)
           (Plugin.mkClass "pkg.mod" "Tool" (Some (Ok "tools")) None));
    reflexivity.
Defined.

(** The number [7], loaded from a list, has no [plugin_name()]: looking for
    any name raises its error. *)
Lemma get_plugin_passes_errors_on_witness :
  get_plugin (world [ep "numbers"]) 0 "a" (fresh, 0)
  = Some (Exn AttributeError, (mkPluginManager [] [7] false, 0)).
Proof.
  destruct (get_plugin_passes_errors_on (world [ep "numbers"]) 0 "a" (fresh, 0)
              [7] (mkPluginManager [] [7] false, 0) eq_refl) as [Hname _].
  apply (Hname [] 7 []); [reflexivity | constructor | reflexivity].
Defined.
